(** * The MCP agent chat shell (streamlit.py)

    A shallow embedding of the Streamlit script: the session state it keeps,
    the configuration loader, the agent initializer, the sidebar with its
    "New Conversation" button, the chat-input handler and the shutdown hook.

    The script is re-executed from the top on every interaction.  Everything
    it does not implement itself (the file system and the JSON parser, the
    MCP client, the LLM binding and the agent, the widgets) is an input of
    one execution, collected in the record [env]; every call the script
    makes on those collaborators and every message it displays is appended
    to a log of [event]s, so that "is invoked exactly once" and "an error is
    shown" are statements about that log.  Calls that only draw the page
    (page configuration, style sheet, titles and captions) and the loading
    of the environment file touch neither the session state nor a
    collaborator and are left out. *)

From Stdlib Require Import String Ascii List Bool Arith ZArith Lia.
Import ListNotations.
Open Scope string_scope.

Set Implicit Arguments.
Set Warnings "-register-all".

(** ** Python values that occur in the script *)

(** What [json.load] produces: [JNum] is an integer number (Python's
    [int]), [JFloat] a number written with a fraction or an exponent
    (Python's [float]), kept as its literal. *)
Inductive json : Type :=
| JNull
| JBool (b : bool)
| JNum (z : Z)
| JFloat (literal : string)
| JStr (s : string)
| JArr (items : list json)
| JObj (fields : list (string * json)).

(** What a raised Python object is for the two handlers of the script:
    [Exc msg] is an instance of [Exception] whose [str(e)] is [msg], the
    thing [except Exception as e] catches; [Ctl name] is one outside
    [Exception] ([KeyboardInterrupt], [SystemExit], the script-control
    signal Streamlit uses to stop and rerun a script), which only a bare
    [except:] catches. *)
Inductive thrown : Type :=
| Exc (msg : string)
| Ctl (name : string).

Inductive outcome (A : Type) : Type :=
| Ret (a : A)
| Throw (t : thrown).
Arguments Ret {A} a.
Arguments Throw {A} t.

(** Transcript entries: [{"role": r, "content": c}]. *)
Record entry : Type := Entry { role : string; content : string }.

(** Handles of the collaborators.  An object built by a constructor call is
    the record of the arguments of that call. *)
Inductive client_obj : Type := MCPClient (id : nat).
Inductive llm_obj : Type := ChatGroq (model : json).
Record agent_obj : Type := MCPAgent
  { llm : llm_obj; agent_client : client_obj;
    max_steps : Z; memory_enabled : bool }.

(** ** Session state

    [st.session_state] is a dict-like object; each field below is [None]
    while its key is absent.  The handles themselves may be Python's [None],
    hence the inner option of [agent] and [client]. *)
Record session_state : Type := SessionState
  { messages : option (list entry);
    agent : option (option agent_obj);
    client : option (option client_obj);
    selected_model : option json }.

Definition empty_session : session_state :=
  {| messages := None; agent := None; client := None; selected_model := None |}.

(** ** Events *)
Inductive event : Type :=
| StError (msg : string)
| StSuccess (msg : string)
| StInfo (msg : string)
| StSpinner (msg : string)
| ChatMessage (text : string) (is_user : bool) (key_prefix : string) (index : nat)
| OpenFile (path : string)
| JsonLoad (text : string)
| FromConfigFile (path : string)
| NewChatGroq (model : json)
| NewMCPAgent (l : llm_obj) (c : client_obj)
| Selectbox (options current : json)
| AgentRun (a : agent_obj) (text : string)
| ClearConversationHistory (a : agent_obj)
| CloseAllSessions (c : client_obj)
| ExperimentalRerun
| AtexitRegister.

(** ** The world of one process *)
Record world : Type := World
  { ss : session_state;
    models_cache : option json;     (* the [st.cache_data] entry of [load_models] *)
    log : list event }.

(** ** What the collaborators answer during one execution of the script *)
Record env : Type := Env
  { open_file : string -> outcome string;
    json_load : string -> outcome json;
    from_config_file : string -> outcome client_obj;
    chat_groq : json -> outcome unit;
    mcp_agent : llm_obj -> client_obj -> outcome unit;
    selectbox : json -> json -> outcome json;
    button_new_conversation : bool;
    chat_input : option string;
    agent_run : agent_obj -> string -> outcome string;
    clear_conversation_history : agent_obj -> outcome unit;
    experimental_rerun : outcome unit;
    client_sessions : client_obj -> list string;
    close_all_sessions : client_obj -> outcome unit }.

(** ** A state-and-exception monad for the script *)
Definition M (A : Type) : Type := world -> outcome A * world.

Definition ret {A} (a : A) : M A := fun w => (Ret a, w).

Definition bind {A B} (m : M A) (f : A -> M B) : M B :=
  fun w => match m w with
           | (Ret a, w') => f a w'
           | (Throw t, w') => (Throw t, w')
           end.

Definition raise {A} (t : thrown) : M A := fun w => (Throw t, w).

Notation "x <- m ;; k" := (bind m (fun x => k))
  (at level 61, m at next level, right associativity).
Notation "m ;;; k" := (bind m (fun _ => k))
  (at level 61, right associativity).

(** [try: body / except Exception as e: handler] *)
Definition try_except {A} (body : M A) (handler : string -> M A) : M A :=
  fun w => match body w with
           | (Throw (Exc msg), w') => handler msg w'
           | r => r
           end.

(** [try: body / except: handler] *)
Definition try_except_all {A} (body : M A) (handler : M A) : M A :=
  fun w => match body w with
           | (Throw _, w') => handler w'
           | r => r
           end.

Definition emit (e : event) : M unit :=
  fun w => (Ret tt, {| ss := ss w; models_cache := models_cache w; log := log w ++ [e] |}).

(** A computation that does not touch the world. *)
Definition lift {A} (o : outcome A) : M A := fun w => (o, w).

(** A call on a collaborator: logged, then answered by the environment. *)
Definition call {A} (e : event) (answer : outcome A) : M A :=
  emit e ;;; lift answer.

Definition get_ss : M session_state := fun w => (Ret (ss w), w).

Definition put_ss (s : session_state) : M unit :=
  fun w => (Ret tt, {| ss := s; models_cache := models_cache w; log := log w |}).

(** Attribute access on [st.session_state]: an absent key raises. *)
Definition attr {A} (name : string) (field : session_state -> option A) : M A :=
  s <- get_ss ;;
  match field s with
  | Some v => ret v
  | None => raise (Exc ("st.session_state has no attribute " ++ name))
  end.

Definition set_messages (l : list entry) : M unit :=
  s <- get_ss ;;
  put_ss {| messages := Some l; agent := agent s; client := client s;
            selected_model := selected_model s |}.

Definition set_agent (a : option agent_obj) : M unit :=
  s <- get_ss ;;
  put_ss {| messages := messages s; agent := Some a; client := client s;
            selected_model := selected_model s |}.

Definition set_client (c : option client_obj) : M unit :=
  s <- get_ss ;;
  put_ss {| messages := messages s; agent := agent s; client := Some c;
            selected_model := selected_model s |}.

Definition set_selected_model (m : json) : M unit :=
  s <- get_ss ;;
  put_ss {| messages := messages s; agent := agent s; client := client s;
            selected_model := Some m |}.

Definition st_error (msg : string) : M unit := emit (StError msg).

(** ** Strings: Python's [needle in hay]

    A string is its sequence of characters; [contains] is the substring
    test of [str.__contains__]. *)
Fixpoint starts_with (needle hay : string) : bool :=
  match needle, hay with
  | EmptyString, _ => true
  | String a n, String b h => if Ascii.eqb a b then starts_with n h else false
  | String _ _, EmptyString => false
  end.

Fixpoint contains (needle hay : string) : bool :=
  if starts_with needle hay then true
  else match hay with
       | EmptyString => false
       | String _ h => contains needle h
       end.

(** ** Configuration loader (lines 118-126) *)

Definition default_models : json := JArr [JStr "qwen-qwq-32b"].

Definition fallback_models : json :=
  JArr [JStr "qwen-qwq-32b"; JStr "llama3-8b-8192"; JStr "llama3-70b-8192"].

(** The dict [json.load] builds from an object: a later duplicate of a key
    replaces an earlier one. *)
Fixpoint dict_lookup (key : string) (fields : list (string * json)) : option json :=
  match fields with
  | [] => None
  | (k, v) :: rest =>
      match dict_lookup key rest with
      | Some v' => Some v'
      | None => if String.eqb k key then Some v else None
      end
  end.

(** [type(v).__name__], as Python's error texts quote it. *)
Definition type_name (v : json) : string :=
  match v with
  | JNull => "NoneType"
  | JBool _ => "bool"
  | JNum _ => "int"
  | JFloat _ => "float"
  | JStr _ => "str"
  | JArr _ => "list"
  | JObj _ => "dict"
  end.

(** [config.get("models", default)]: only a dict has [get]. *)
Definition config_get (config : json) (key : string) (default : json)
  : outcome json :=
  match config with
  | JObj fields =>
      match dict_lookup key fields with
      | Some v => Ret v
      | None => Ret default
      end
  | _ => Throw (Exc ("'" ++ type_name config
                      ++ "' object has no attribute 'get'"))
  end.

(** ["groq" in model], for whatever value the selected model is: substring
    test on a string, membership in a list, key membership in a dict. *)
Definition py_in (needle : string) (v : json) : outcome bool :=
  match v with
  | JStr s => Ret (contains needle s)
  | JArr items =>
      Ret (existsb (fun x => match x with
                             | JStr s => String.eqb s needle
                             | _ => false
                             end) items)
  | JObj fields => Ret (existsb (fun kv => String.eqb (fst kv) needle) fields)
  | _ => Throw (Exc ("argument of type '" ++ type_name v
                      ++ "' is not iterable"))
  end.

(** [available_models[0]] *)
Definition getitem0 (v : json) : outcome json :=
  match v with
  | JArr (x :: _) => Ret x
  | JArr [] => Throw (Exc "list index out of range")
  | JStr (String a _) => Ret (JStr (String a EmptyString))
  | JStr EmptyString => Throw (Exc "string index out of range")
  | JObj _ => Throw (Exc "0")
  | _ => Throw (Exc ("'" ++ type_name v ++ "' object is not subscriptable"))
  end.

Section Script.

Variable E : env.

Definition load_models_body : M json :=
  try_except_all
    (f <- call (OpenFile "browser_mcp.json") (open_file E "browser_mcp.json") ;;
     config <- call (JsonLoad f) (json_load E f) ;;
     lift (config_get config "models" default_models))
    (ret fallback_models).

(** [@st.cache_data]: the body runs on a cache miss and its value is kept. *)
Definition load_models : M json :=
  fun w =>
    match models_cache w with
    | Some v => (Ret v, w)
    | None =>
        match load_models_body w with
        | (Ret v, w') =>
            (Ret v, {| ss := ss w'; models_cache := Some v; log := log w' |})
        | r => r
        end
    end.

(** ** Session state initialisation (lines 79-84) *)
Definition init_session_state : M unit :=
  s <- get_ss ;;
  (match messages s with None => set_messages [] | Some _ => ret tt end) ;;;
  s <- get_ss ;;
  (match agent s with None => set_agent None | Some _ => ret tt end) ;;;
  s <- get_ss ;;
  (match client s with None => set_client None | Some _ => ret tt end).

(** ** Agent initializer (lines 86-116) *)

Definition new_chat_groq (model : json) : M llm_obj :=
  call (NewChatGroq model) (chat_groq E model) ;;;
  ret (ChatGroq model).

Definition new_mcp_agent (l : llm_obj) (c : client_obj) : M agent_obj :=
  call (NewMCPAgent l c) (mcp_agent E l c) ;;;
  ret {| llm := l; agent_client := c; max_steps := 15; memory_enabled := true |}.

Definition initialize_agent_body : M (option client_obj * option agent_obj) :=
  let config_file := "browser_mcp.json" in
  c <- call (FromConfigFile config_file) (from_config_file E config_file) ;;
  model <- attr "selected_model" selected_model ;;
  groq <- lift (py_in "groq" model) ;;
  l <- (if groq : bool then new_chat_groq model
        else new_chat_groq (JStr "qwen-qwq-32b")) ;;
  a <- new_mcp_agent l c ;;
  ret (Some c, Some a).

Definition initialize_agent : M (option client_obj * option agent_obj) :=
  try_except initialize_agent_body
    (fun msg => st_error ("Error initializing agent: " ++ msg) ;;;
                ret (None, None)).

(** ** Sidebar (lines 129-150) *)

(** The handler of the "New Conversation" button (lines 148-150). *)
Definition new_conversation : M unit :=
  set_messages [] ;;;
  a <- attr "agent" agent ;;
  match a with
  | Some ag =>
      call (ClearConversationHistory ag) (clear_conversation_history E ag)
  | None => ret tt
  end.

(** The model selector evaluates [available_models.index(current)] and shows
    the widget; what the two yield together is the environment's answer. *)
Definition sidebar : M unit :=
  available_models <- load_models ;;
  s <- get_ss ;;
  (match selected_model s with
   | None => m <- lift (getitem0 available_models) ;; set_selected_model m
   | Some _ => ret tt
   end) ;;;
  current <- attr "selected_model" selected_model ;;
  chosen <- call (Selectbox available_models current)
                 (selectbox E available_models current) ;;
  set_selected_model chosen ;;;
  if button_new_conversation E then new_conversation else ret tt.

(** ** Agent initialization block (lines 168-174) *)
Definition is_none {A} (o : option A) : bool :=
  match o with None => true | Some _ => false end.

Definition init_block : M unit :=
  a <- attr "agent" agent ;;
  needed <- (if is_none a then ret true
             else c <- attr "client" client ;; ret (is_none c)) ;;
  if needed : bool then
    emit (StSpinner "Initializing agent...") ;;;
    r <- initialize_agent ;;
    set_client (fst r) ;;;
    set_agent (snd r) ;;;
    a' <- attr "agent" agent ;;
    match a' with
    | Some _ => emit (StSuccess "Agent initialized successfully!")
    | None =>
        st_error "Failed to initialize agent. Please check your configuration."
    end
  else ret tt.

(** ** Transcript display (lines 177-186) *)
Fixpoint show_messages (i : nat) (l : list entry) : M unit :=
  match l with
  | [] => ret tt
  | msg :: rest =>
      (if String.eqb (role msg) "user"
       then emit (ChatMessage (content msg) true "user_" i)
       else emit (ChatMessage (content msg) false "ai_" i)) ;;;
      show_messages (S i) rest
  end.

Definition display : M unit :=
  msgs <- attr "messages" messages ;;
  if Nat.eqb (List.length msgs) 0
  then emit (StInfo "Send a message to start the conversation!")
  else show_messages 0 msgs.

(** ** Chat input handler (lines 189-212) *)
Definition append_message (e : entry) : M unit :=
  msgs <- attr "messages" messages ;;
  set_messages (msgs ++ [e]).

Definition handle_input (user_input : string) : M unit :=
  append_message {| role := "user"; content := user_input |} ;;;
  emit (StSpinner "Thinking...") ;;;
  try_except
    (a <- attr "agent" agent ;;
     (match a with
      | Some ag =>
          response <- call (AgentRun ag user_input) (agent_run E ag user_input) ;;
          append_message {| role := "assistant"; content := response |}
      | None =>
          st_error "Agent is not initialized. Please try restarting the app."
      end) ;;;
     call ExperimentalRerun (experimental_rerun E))
    (fun msg => st_error ("Error: " ++ msg)).

Definition chat_block : M unit :=
  match chat_input E with
  | Some (String a s) => handle_input (String a s)
  | _ => ret tt
  end.

(** ** Shutdown hook (lines 215-220) *)
Definition cleanup : M unit :=
  s <- get_ss ;;
  match client s with
  | Some (Some c) =>
      match client_sessions E c with
      | _ :: _ => call (CloseAllSessions c) (close_all_sessions E c)
      | [] => ret tt
      end
  | _ => ret tt
  end.

(** ** One execution of the script *)
Fixpoint run_steps (steps : list (M unit)) : M unit :=
  match steps with
  | [] => ret tt
  | m :: rest => m ;;; run_steps rest
  end.

Definition script_steps : list (M unit) :=
  [ init_session_state; sidebar; init_block; display; chat_block;
    emit AtexitRegister ].

Definition script : M unit := run_steps script_steps.

(** The part of the script that runs before the chat input is read. *)
Definition before_chat : M unit :=
  run_steps [ init_session_state; sidebar; init_block; display ].

End Script.

(** Successive executions of the script in one session; an execution that
    stops with an uncaught exception or a control signal keeps the session
    state it reached. *)
Fixpoint run_session (Es : list env) (w : world) : world :=
  match Es with
  | [] => w
  | E :: rest => run_session rest (snd (script E w))
  end.

Definition fresh_world (cache : option json) : world :=
  {| ss := empty_session; models_cache := cache; log := [] |}.

Definition transcript (w : world) : list entry :=
  match messages (ss w) with Some l => l | None => [] end.

(** ** Vocabulary of the properties *)

(** A handle is present when its key exists and holds an object. *)
Definition handle_present {A} (h : option (option A)) : bool :=
  match h with Some (Some _) => true | _ => false end.

Definition handles_paired (s : session_state) : Prop :=
  handle_present (agent s) = handle_present (client s).

(** States of a session: a fresh one, the state after any number of leading
    blocks of an execution of the script (the whole execution included),
    and the state after the shutdown hook. *)
Inductive reachable : world -> Prop :=
| reachable_fresh : forall cache, reachable (fresh_world cache)
| reachable_blocks : forall E k w,
    reachable w ->
    reachable (snd (run_steps (firstn k (script_steps E)) w))
| reachable_cleanup : forall E w,
    reachable w -> reachable (snd (cleanup E w)).

(** A successful turn is an execution of the script started by a submitted
    message (so the button is not pressed in it) that reaches the chat
    handler with an agent present whose [run] returns. *)
Definition successful_turn (E : env) (w : world) : bool :=
  negb (button_new_conversation E) &&
  match chat_input E, before_chat E w with
  | Some (String a s), (Ret _, w') =>
      match agent (ss w') with
      | Some (Some ag) =>
          match agent_run E ag (String a s) with
          | Ret _ => true
          | Throw _ => false
          end
      | _ => false
      end
  | _, _ => false
  end.

(** An idle execution: nothing is submitted and the button is not pressed
    (the rerun that follows a turn, a change of the selected model). *)
Definition idle (E : env) : bool :=
  negb (button_new_conversation E) &&
  match chat_input E with
  | Some (String _ _) => false
  | _ => true
  end.

(** A session made of successful turns and idle executions, and the number
    of successful turns in it. *)
Fixpoint turns_or_idle (Es : list env) (w : world) : bool :=
  match Es with
  | [] => true
  | E :: rest =>
      (successful_turn E w || idle E) && turns_or_idle rest (snd (script E w))
  end.

Fixpoint count_turns (Es : list env) (w : world) : nat :=
  match Es with
  | [] => 0
  | E :: rest =>
      (if successful_turn E w then 1 else 0) + count_turns rest (snd (script E w))
  end.

(** The entries of a list of question/answer pairs. *)
Fixpoint exchanges (qa : list (string * string)) : list entry :=
  match qa with
  | [] => []
  | (q, a) :: rest =>
      {| role := "user"; content := q |}
      :: {| role := "assistant"; content := a |} :: exchanges rest
  end.

(** Number of invocations of the agent's memory-clear operation, and of the
    client's close-all-sessions operation, in a log. *)
Fixpoint clear_calls (l : list event) : nat :=
  match l with
  | [] => 0
  | ClearConversationHistory _ :: rest => S (clear_calls rest)
  | _ :: rest => clear_calls rest
  end.

Fixpoint close_calls (l : list event) : nat :=
  match l with
  | [] => 0
  | CloseAllSessions _ :: rest => S (close_calls rest)
  | _ :: rest => close_calls rest
  end.

Definition is_new_chat_groq (e : event) : bool :=
  match e with NewChatGroq _ => true | _ => false end.

(** The three constructor calls of the initializer, each raising [msg] at
    the point where the initializer reaches it. *)
Inductive construction_raises (E : env) (s : session_state) (msg : string) : Prop :=
| client_construction_raises :
    from_config_file E "browser_mcp.json" = Throw (Exc msg) ->
    construction_raises E s msg
| llm_construction_raises : forall c model groq,
    from_config_file E "browser_mcp.json" = Ret c ->
    selected_model s = Some model ->
    py_in "groq" model = Ret groq ->
    chat_groq E (if groq then model else JStr "qwen-qwq-32b") = Throw (Exc msg) ->
    construction_raises E s msg
| agent_construction_raises : forall c model groq,
    from_config_file E "browser_mcp.json" = Ret c ->
    selected_model s = Some model ->
    py_in "groq" model = Ret groq ->
    chat_groq E (if groq then model else JStr "qwen-qwq-32b") = Ret tt ->
    mcp_agent E (ChatGroq (if groq then model else JStr "qwen-qwq-32b")) c
      = Throw (Exc msg) ->
    construction_raises E s msg.

(** Relations between the world before and after a computation. *)
Definition steps (R : world -> world -> Prop) {A} (m : M A) : Prop :=
  forall w, R w (snd (m w)).

Definition log_grows (w w' : world) : Prop :=
  exists l, log w' = (log w ++ l)%list.


Definition same_session (w w' : world) : Prop := ss w' = ss w.

Definition same_messages (w w' : world) : Prop :=
  messages (ss w') = messages (ss w).

Definition same_handles (w w' : world) : Prop :=
  agent (ss w') = agent (ss w) /\ client (ss w') = client (ss w).

Definition keeps_paired (w w' : world) : Prop :=
  handles_paired (ss w) -> handles_paired (ss w').

Class FrameRel (R : world -> world -> Prop) : Prop :=
  { frame_refl : forall w, R w w;
    frame_trans : forall a b c, R a b -> R b c -> R a c }.

(** ** Sample environments *)

(** Every collaborator answers, the configuration lists two models, nothing
    is clicked or typed. *)
Definition idle_env : env :=
  {| open_file := fun _ => Ret "<browser_mcp.json>";
     json_load := fun _ =>
       Ret (JObj [("models", JArr [JStr "groq-llama"; JStr "qwen-qwq-32b"])]);
     from_config_file := fun _ => Ret (MCPClient 0);
     chat_groq := fun _ => Ret tt;
     mcp_agent := fun _ _ => Ret tt;
     selectbox := fun _ current => Ret current;
     button_new_conversation := false;
     chat_input := None;
     agent_run := fun _ text => Ret ("re: " ++ text);
     clear_conversation_history := fun _ => Ret tt;
     experimental_rerun := Throw (Ctl "RerunException");
     client_sessions := fun _ => ["playwright"];
     close_all_sessions := fun _ => Ret tt |}.

Definition with_input (E : env) (text : string) : env :=
  {| open_file := open_file E; json_load := json_load E;
     from_config_file := from_config_file E; chat_groq := chat_groq E;
     mcp_agent := mcp_agent E; selectbox := selectbox E;
     button_new_conversation := button_new_conversation E;
     chat_input := Some text;
     agent_run := agent_run E;
     clear_conversation_history := clear_conversation_history E;
     experimental_rerun := experimental_rerun E;
     client_sessions := client_sessions E;
     close_all_sessions := close_all_sessions E |}.

Definition with_agent_run (E : env) (f : agent_obj -> string -> outcome string) : env :=
  {| open_file := open_file E; json_load := json_load E;
     from_config_file := from_config_file E; chat_groq := chat_groq E;
     mcp_agent := mcp_agent E; selectbox := selectbox E;
     button_new_conversation := button_new_conversation E;
     chat_input := chat_input E;
     agent_run := f;
     clear_conversation_history := clear_conversation_history E;
     experimental_rerun := experimental_rerun E;
     client_sessions := client_sessions E;
     close_all_sessions := close_all_sessions E |}.

Definition with_config (E : env) (config : outcome json) : env :=
  {| open_file := open_file E; json_load := fun _ => config;
     from_config_file := from_config_file E; chat_groq := chat_groq E;
     mcp_agent := mcp_agent E; selectbox := selectbox E;
     button_new_conversation := button_new_conversation E;
     chat_input := chat_input E;
     agent_run := agent_run E;
     clear_conversation_history := clear_conversation_history E;
     experimental_rerun := experimental_rerun E;
     client_sessions := client_sessions E;
     close_all_sessions := close_all_sessions E |}.

Definition with_client (E : env) (c : outcome client_obj) : env :=
  {| open_file := open_file E; json_load := json_load E;
     from_config_file := fun _ => c; chat_groq := chat_groq E;
     mcp_agent := mcp_agent E; selectbox := selectbox E;
     button_new_conversation := button_new_conversation E;
     chat_input := chat_input E;
     agent_run := agent_run E;
     clear_conversation_history := clear_conversation_history E;
     experimental_rerun := experimental_rerun E;
     client_sessions := client_sessions E;
     close_all_sessions := close_all_sessions E |}.

(** The configuration parses to an object without the "models" key. *)
Definition no_models_env : env :=
  with_config idle_env (Ret (JObj [("mcpServers", JObj [])])).

(** A message is submitted and the agent's call raises. *)
Definition failing_env : env :=
  with_agent_run (with_input idle_env "hello")
    (fun _ _ => Throw (Exc "connection refused")).

(** Two turns, each followed by the idle execution of its rerun. *)
Definition two_turns : list env :=
  [ with_input idle_env "hello"; idle_env;
    with_input idle_env "and then?"; idle_env ].

(** The client constructor raises. *)
Definition no_client_env : env :=
  with_client idle_env (Throw (Exc "no such file")).

(** A session state as the script leaves it: transcript [l], handles [a]
    and [c], a model selected. *)
Definition session_with (l : list entry) (a : option agent_obj)
    (c : option client_obj) : world :=
  {| ss := {| messages := Some l; agent := Some a; client := Some c;
              selected_model := Some (JStr "groq-llama") |};
     models_cache := None; log := [] |}.

Definition sample_agent : agent_obj :=
  {| llm := ChatGroq (JStr "groq-llama"); agent_client := MCPClient 0;
     max_steps := 15; memory_enabled := true |}.

(** ** Vocabulary of the further properties *)

(** Calls of the three constructors in a log, and the calls of [run]. *)
Definition is_constructor_call (e : event) : bool :=
  match e with
  | FromConfigFile _ | NewChatGroq _ | NewMCPAgent _ _ => true
  | _ => false
  end.

Definition constructor_calls (l : list event) : nat :=
  List.length (filter is_constructor_call l).

Definition is_agent_run (e : event) : bool :=
  match e with AgentRun _ _ => true | _ => false end.

(** The agent in the session state is bound to the client stored beside it
    and was built with the script's fixed settings. *)
Definition agent_bound (s : session_state) : Prop :=
  forall a, agent s = Some (Some a) ->
            client s = Some (Some (agent_client a)) /\
            max_steps a = 15%Z /\ memory_enabled a = true.

Definition keeps_bound (w w' : world) : Prop :=
  agent_bound (ss w) -> agent_bound (ss w').

(** Handles and constructor calls as before. *)
Definition quiet (w w' : world) : Prop :=
  agent (ss w') = agent (ss w) /\ client (ss w') = client (ss w) /\
  constructor_calls (log w') = constructor_calls (log w).

(** The log grows by events none of which is a call of [run]. *)
Definition no_runs (w w' : world) : Prop :=
  exists l, log w' = (log w ++ l)%list /\ filter is_agent_run l = [].

(** With both handles present, nothing is rebuilt. *)
Definition settled (w w' : world) : Prop :=
  handle_present (agent (ss w)) = true ->
  handle_present (client (ss w)) = true ->
  agent (ss w') = agent (ss w) /\ client (ss w') = client (ss w) /\
  constructor_calls (log w') = constructor_calls (log w).

(** A cached model list stays. *)
Definition cache_kept (w w' : world) : Prop :=
  forall v, models_cache w = Some v -> models_cache w' = Some v.

(** The keys the script initialises stay in the session state. *)
Definition keys_kept (w w' : world) : Prop :=
  (messages (ss w) <> None -> messages (ss w') <> None) /\
  (agent (ss w) <> None -> agent (ss w') <> None) /\
  (client (ss w) <> None -> client (ss w') <> None).

(** Whenever the computation returns, [P] holds of the world it leaves. *)
Definition returns_in (P : world -> Prop) {A} (m : M A) : Prop :=
  forall w b, fst (m w) = Ret b -> P (snd (m w)).

(** What [display] shows for the entry at position [i]. *)
Definition shown_as (i : nat) (e : entry) (ev : event) : Prop :=
  (role e = "user" /\ ev = ChatMessage (content e) true "user_" i) \/
  (role e <> "user" /\ ev = ChatMessage (content e) false "ai_" i).

Definition with_button (E : env) (pressed : bool) : env :=
  {| open_file := open_file E; json_load := json_load E;
     from_config_file := from_config_file E; chat_groq := chat_groq E;
     mcp_agent := mcp_agent E; selectbox := selectbox E;
     button_new_conversation := pressed;
     chat_input := chat_input E;
     agent_run := agent_run E;
     clear_conversation_history := clear_conversation_history E;
     experimental_rerun := experimental_rerun E;
     client_sessions := client_sessions E;
     close_all_sessions := close_all_sessions E |}.

(** An initialised session with no handles in which [m] is selected. *)
Definition session_selecting (m : json) : world :=
  {| ss := {| messages := Some []; agent := Some None; client := Some None;
              selected_model := Some m |};
     models_cache := None; log := [] |}.

(** The configured model list is empty. *)
Definition empty_models_env : env :=
  with_config idle_env (Ret (JObj [("models", JArr [])])).

(** The select box answers by [f]. *)
Definition with_selectbox (E : env) (f : json -> json -> outcome json) : env :=
  {| open_file := open_file E; json_load := json_load E;
     from_config_file := from_config_file E; chat_groq := chat_groq E;
     mcp_agent := mcp_agent E; selectbox := f;
     button_new_conversation := button_new_conversation E;
     chat_input := chat_input E;
     agent_run := agent_run E;
     clear_conversation_history := clear_conversation_history E;
     experimental_rerun := experimental_rerun E;
     client_sessions := client_sessions E;
     close_all_sessions := close_all_sessions E |}.

(** ** The sidebar up to the button, and process exit *)

(** The model selector (lines 133-143): the sidebar before
    [if st.button("New Conversation")]. *)
Definition select_model (E : env) : M unit :=
  available_models <- load_models E ;;
  s <- get_ss ;;
  (match selected_model s with
   | None => m <- lift (getitem0 available_models) ;; set_selected_model m
   | Some _ => ret tt
   end) ;;;
  current <- attr "selected_model" selected_model ;;
  chosen <- call (Selectbox available_models current)
                 (selectbox E available_models current) ;;
  set_selected_model chosen.

(** Memory-clear calls are as many as before. *)
Definition same_clears (w w' : world) : Prop :=
  clear_calls (log w') = clear_calls (log w).

(** [atexit.register(cleanup)] is the last statement of the script: every
    execution that gets there adds one more registration of the hook. *)
Fixpoint registered_hooks (l : list event) : nat :=
  match l with
  | [] => 0
  | AtexitRegister :: rest => S (registered_hooks rest)
  | _ :: rest => registered_hooks rest
  end.

Definition same_hooks (w w' : world) : Prop :=
  registered_hooks (log w') = registered_hooks (log w).







(** A session that held a two-entry conversation with an agent. *)
Definition talking_session : world :=
  session_with (exchanges [("hi", "hello")]) (Some sample_agent)
    (Some (MCPClient 0)).

Unset Implicit Arguments.

(** * Proofs *)

(** ** Substring test *)
Lemma starts_with_spec : forall needle hay,
  starts_with needle hay = true <-> exists post, hay = needle ++ post.
Proof.
  induction needle as [|a n IH]; intros hay; simpl.
  - split; [intros _; exists hay; reflexivity | reflexivity].
  - destruct hay as [|b h].
    + split; [discriminate | intros [post H]; discriminate].
    + destruct (Ascii.eqb_spec a b) as [->|Hne].
      * rewrite IH. split; intros [post H]; exists post.
        -- now rewrite H.
        -- now inversion H.
      * split; [discriminate | intros [post H]; inversion H; congruence].
Qed.

Lemma contains_spec : forall needle hay,
  contains needle hay = true <-> exists pre post, hay = pre ++ needle ++ post.
Proof.
  intros needle hay; induction hay as [|b h IH]; simpl.
  - destruct (starts_with needle "") eqn:Hs.
    + split; [intros _ | reflexivity].
      apply starts_with_spec in Hs. destruct Hs as [post H].
      exists "", post. exact H.
    + split; [discriminate|].
      intros [pre [post H]]. destruct pre; simpl in H.
      * assert (starts_with needle "" = true) by (apply starts_with_spec; eauto).
        congruence.
      * discriminate.
  - destruct (starts_with needle (String b h)) eqn:Hs.
    + split; [intros _ | reflexivity].
      apply starts_with_spec in Hs. destruct Hs as [post H].
      exists "", post. exact H.
    + rewrite IH. split.
      * intros [pre [post H]]. exists (String b pre), post. simpl. now rewrite H.
      * intros [pre [post H]]. destruct pre as [|c pre]; simpl in H.
        -- assert (starts_with needle (String b h) = true)
             by (apply starts_with_spec; eauto).
           congruence.
        -- inversion H. eauto.
Qed.

(** ** Framing: what a computation leaves related *)
Section Frame.
Variable R : world -> world -> Prop.
Context {HR : FrameRel R}.

Lemma steps_ret A (a : A) : steps R (ret a).
Proof. intros w; apply frame_refl. Qed.

Lemma steps_raise A t : steps R (@raise A t).
Proof. intros w; apply frame_refl. Qed.

Lemma steps_lift A (o : outcome A) : steps R (lift o).
Proof. intros w; apply frame_refl. Qed.

Lemma steps_get_ss : steps R get_ss.
Proof. intros w; apply frame_refl. Qed.

Lemma steps_bind A B (m : M A) (f : A -> M B) :
  steps R m -> (forall a, steps R (f a)) -> steps R (bind m f).
Proof.
  intros Hm Hf w. unfold bind.
  specialize (Hm w). destruct (m w) as [[a|t] w1]; simpl in *.
  - eapply frame_trans; [exact Hm | apply Hf].
  - exact Hm.
Qed.

Lemma steps_try_except A (body : M A) handler :
  steps R body -> (forall msg, steps R (handler msg)) ->
  steps R (try_except body handler).
Proof.
  intros Hm Hh w. unfold try_except.
  specialize (Hm w). destruct (body w) as [[a|[msg|n]] w1]; simpl in *; auto.
  eapply frame_trans; [exact Hm | apply Hh].
Qed.

Lemma steps_try_except_all A (body handler : M A) :
  steps R body -> steps R handler -> steps R (try_except_all body handler).
Proof.
  intros Hm Hh w. unfold try_except_all.
  specialize (Hm w). destruct (body w) as [[a|t] w1]; simpl in *; auto.
  eapply frame_trans; [exact Hm | apply Hh].
Qed.

Lemma steps_attr A name (field : session_state -> option A) :
  steps R (attr name field).
Proof.
  intros w. unfold attr, bind, get_ss. destruct (field (ss w)); apply frame_refl.
Qed.

Lemma steps_call A e (o : outcome A) : steps R (emit e) -> steps R (call e o).
Proof. intros He. apply steps_bind; [exact He | intros; apply steps_lift]. Qed.

Lemma steps_run_steps l : Forall (steps R (A:=unit)) l -> steps R (run_steps l).
Proof.
  induction 1; simpl.
  - apply steps_ret.
  - apply steps_bind; auto.
Qed.

(** The cache wrapper of [load_models] only needs the relation to ignore
    the cache. *)
Lemma steps_load_models E :
  (forall w v, R w {| ss := ss w; models_cache := v; log := log w |}) ->
  steps R (emit (OpenFile "browser_mcp.json")) ->
  (forall f, steps R (emit (JsonLoad f))) ->
  steps R (load_models E).
Proof.
  intros Hc Ho Hj w. unfold load_models.
  destruct (models_cache w); [apply frame_refl|].
  assert (Hb : steps R (load_models_body E)).
  { unfold load_models_body. apply steps_try_except_all; [|apply steps_ret].
    apply steps_bind; [apply steps_call; exact Ho|]. intros f.
    apply steps_bind; [apply steps_call; apply Hj|]. intros c. apply steps_lift. }
  specialize (Hb w). destruct (load_models_body E w) as [[v|t] w1]; simpl in *; auto.
  eapply frame_trans; [exact Hb | apply Hc].
Qed.
End Frame.

#[export] Instance log_grows_frame : FrameRel log_grows.
Proof.
  split.
  - intros w. exists []. now rewrite app_nil_r.
  - intros a b c [l1 H1] [l2 H2]. exists (l1 ++ l2)%list.
    now rewrite H2, H1, app_assoc.
Qed.

#[export] Instance same_session_frame : FrameRel same_session.
Proof. split; unfold same_session; congruence. Qed.

#[export] Instance same_messages_frame : FrameRel same_messages.
Proof. split; unfold same_messages; congruence. Qed.

#[export] Instance same_handles_frame : FrameRel same_handles.
Proof.
  split; unfold same_handles.
  - auto.
  - intros a b c [] []. split; congruence.
Qed.

#[export] Instance keeps_paired_frame : FrameRel keeps_paired.
Proof. split; unfold keeps_paired; auto. Qed.

(** Decomposes a computation along its binds, handlers and case analyses;
    [leaf] closes the primitive steps. *)
Ltac frame leaf :=
  repeat
    match goal with
    | |- steps _ (ret _) => apply steps_ret; exact _
    | |- steps _ (raise _) => apply steps_raise; exact _
    | |- steps _ (lift _) => apply steps_lift; exact _
    | |- steps _ get_ss => apply steps_get_ss; exact _
    | |- steps _ (attr _ _) => apply steps_attr; exact _
    | |- steps _ (bind _ _) => apply steps_bind; [ exact _ | | intros ? ]
    | |- steps _ (try_except _ _) =>
        apply steps_try_except; [ exact _ | | intros ? ]
    | |- steps _ (try_except_all _ _) =>
        apply steps_try_except_all; [ exact _ | | ]
    | |- steps _ (call _ _) => apply steps_call; [ exact _ | ]
    | |- steps _ (match ?x with _ => _ end) => destruct x
    | |- steps _ (if ?x then _ else _) => destruct x
    | |- steps _ _ => solve [ leaf ]
    end.

Ltac prim :=
  cbv [steps emit put_ss set_messages set_agent set_client set_selected_model
       st_error bind get_ss fst snd ss log models_cache].

Ltac log_leaf :=
  intros; prim; unfold log_grows; cbn;
  first [ eexists; reflexivity | exists []; now rewrite app_nil_r ].

Ltac session_leaf := intros; prim; unfold same_session; reflexivity.
Ltac messages_leaf := intros; prim; unfold same_messages; reflexivity.
Ltac handles_leaf := intros; prim; unfold same_handles; cbn; auto.


Lemma initialize_agent_log E : steps log_grows (initialize_agent E).
Proof.
  unfold initialize_agent, initialize_agent_body, new_chat_groq, new_mcp_agent.
  frame log_leaf.
Qed.

Ltac run :=
  cbv [bind ret raise lift try_except try_except_all call emit attr get_ss put_ss
       set_messages set_agent set_client set_selected_model st_error
       append_message]; cbn.

(** ** Blocks of the script *)

Lemma init_session_state_spec : forall w,
  let r := init_session_state w in
  fst r = Ret tt /\
  messages (ss (snd r)) = Some (transcript w) /\
  (exists a, agent (ss (snd r)) = Some a /\
             handle_present (Some a) = handle_present (agent (ss w))) /\
  (exists c, client (ss (snd r)) = Some c /\
             handle_present (Some c) = handle_present (client (ss w))) /\
  log (snd r) = log w.
Proof.
  intros [[m a c sm] cache lg]. unfold init_session_state, transcript.
  destruct m, a, c; run; repeat split; eauto.
Qed.

Lemma sidebar_handles E : steps same_handles (sidebar E).
Proof.
  unfold sidebar, new_conversation.
  frame handles_leaf.
  apply steps_load_models; [exact _ | handles_leaf ..].
Qed.

Lemma sidebar_messages E :
  button_new_conversation E = false -> steps same_messages (sidebar E).
Proof.
  intros Hb. unfold sidebar. rewrite Hb.
  frame messages_leaf.
  apply steps_load_models; [exact _ | messages_leaf ..].
Qed.

Lemma sidebar_log E : steps log_grows (sidebar E).
Proof.
  unfold sidebar, new_conversation.
  frame log_leaf.
  apply steps_load_models; [exact _ | log_leaf ..].
Qed.

Lemma initialize_agent_session E : steps same_session (initialize_agent E).
Proof.
  unfold initialize_agent, initialize_agent_body, new_chat_groq, new_mcp_agent.
  frame session_leaf.
Qed.

(** The initializer hands back both handles or none. *)
Lemma initialize_agent_result E w :
  (exists c a, fst (initialize_agent E w) = Ret (Some c, Some a)) \/
  fst (initialize_agent E w) = Ret (None, None) \/
  (exists n, fst (initialize_agent E w) = Throw (Ctl n)).
Proof.
  unfold initialize_agent, initialize_agent_body, new_chat_groq, new_mcp_agent.
  run.
  destruct (from_config_file E "browser_mcp.json") as [c|[msg|n]]; cbn; eauto.
  destruct (selected_model (ss w)) as [model|]; cbn; eauto.
  destruct (py_in "groq" model) as [[|]|[msg|n]]; cbn; eauto.
  - destruct (chat_groq E model) as [[]|[msg|n]]; cbn; eauto.
    destruct (mcp_agent E (ChatGroq model) c) as [[]|[msg|n]]; cbn; eauto.
  - destruct (chat_groq E (JStr "qwen-qwq-32b")) as [[]|[msg|n]]; cbn; eauto.
    destruct (mcp_agent E (ChatGroq (JStr "qwen-qwq-32b")) c) as [[]|[msg|n]];
      cbn; eauto.
Qed.

Lemma init_block_messages E : steps same_messages (init_block E).
Proof.
  unfold init_block.
  frame messages_leaf.
  intros w. pose proof (initialize_agent_session E w) as H.
  unfold same_session, same_messages in *. now rewrite H.
Qed.

Lemma init_block_log E : steps log_grows (init_block E).
Proof.
  unfold init_block.
  frame log_leaf. apply initialize_agent_log.
Qed.

Lemma init_block_paired E : steps keeps_paired (init_block E).
Proof.
  intros w Hp. unfold init_block.
  unfold bind at 1. unfold attr at 1. run.
  destruct (agent (ss w)) as [a|] eqn:Ha; cbn; [|exact Hp].
  assert (Hgo : forall w0, ss w0 = ss w ->
            handles_paired
              (ss (snd ((emit (StSpinner "Initializing agent...") ;;;
                         r <- initialize_agent E ;;
                         set_client (fst r) ;;;
                         set_agent (snd r) ;;;
                         a' <- attr "agent" agent ;;
                         match a' with
                         | Some _ => emit (StSuccess "Agent initialized successfully!")
                         | None =>
                             st_error
                               "Failed to initialize agent. Please check your configuration."
                         end) w0)))).
  { intros w0 Hw0. unfold bind at 1. cbn.
    set (w1 := {| ss := ss w0; models_cache := models_cache w0;
                  log := (log w0 ++ [StSpinner "Initializing agent..."])%list |}).
    unfold bind at 1.
    pose proof (initialize_agent_session E w1) as Hs.
    pose proof (initialize_agent_result E w1) as Hr.
    destruct (initialize_agent E w1) as [r w2]. cbn in Hs, Hr.
    unfold same_session in Hs. cbn in Hs.
    destruct Hr as [[c0 [a0 ->]] | [-> | [n ->]]]; run;
      unfold handles_paired; cbn; try reflexivity.
    rewrite Hs, Hw0. exact Hp. }
  destruct a as [ag|]; cbn.
  - destruct (client (ss w)) as [c|] eqn:Hc; cbn; [|exact Hp].
    destruct c as [c|]; cbn; [exact Hp|].
    apply (Hgo w eq_refl).
  - apply (Hgo w eq_refl).
Qed.

Lemma display_session : steps same_session display.
Proof.
  assert (H : forall l i, steps same_session (show_messages i l)).
  { induction l; intros i; simpl; frame session_leaf; apply IHl. }
  unfold display. frame session_leaf. apply H.
Qed.


Lemma chat_block_handles E : steps same_handles (chat_block E).
Proof. unfold chat_block, handle_input, append_message. frame handles_leaf. Qed.


Lemma cleanup_session E : steps same_session (cleanup E).
Proof. unfold cleanup. frame session_leaf. Qed.

Lemma same_session_handles A (m : M A) : steps same_session m -> steps same_handles m.
Proof. intros H w. specialize (H w). unfold same_session, same_handles in *. now rewrite H. Qed.

Lemma same_session_messages A (m : M A) : steps same_session m -> steps same_messages m.
Proof. intros H w. specialize (H w). unfold same_session, same_messages in *. now rewrite H. Qed.

Lemma same_handles_paired A (m : M A) : steps same_handles m -> steps keeps_paired m.
Proof.
  intros H w Hp. destruct (H w) as [Ha Hc].
  unfold handles_paired in *. now rewrite Ha, Hc.
Qed.

Lemma init_session_state_paired : steps keeps_paired init_session_state.
Proof.
  intros w Hp. destruct (init_session_state_spec w) as (_ & _ & [a [Ha Ha']] & [c [Hc Hc']] & _).
  unfold handles_paired in *. rewrite Ha, Hc. congruence.
Qed.

Lemma script_steps_paired E : Forall (steps keeps_paired (A:=unit)) (script_steps E).
Proof.
  unfold script_steps. repeat constructor.
  - apply init_session_state_paired.
  - apply same_handles_paired, sidebar_handles.
  - apply init_block_paired.
  - apply same_handles_paired, same_session_handles, display_session.
  - apply same_handles_paired, chat_block_handles.
  - intros w. unfold keeps_paired. cbn. auto.
Qed.

Lemma run_steps_app l1 l2 w :
  run_steps (l1 ++ l2) w = (run_steps l1 ;;; run_steps l2) w.
Proof.
  revert w. induction l1 as [|m l1 IH]; intros w; simpl.
  - reflexivity.
  - unfold bind. destruct (m w) as [[[]|t] w1]; [|reflexivity].
    rewrite IH. reflexivity.
Qed.

Lemma exchanges_app a b : exchanges (a ++ b) = (exchanges a ++ exchanges b)%list.
Proof. induction a as [|[q r] a IH]; simpl; [reflexivity | now rewrite IH]. Qed.

Lemma exchanges_length qa : List.length (exchanges qa) = 2 * List.length qa.
Proof. induction qa as [|[q r] qa IH]; simpl; [reflexivity | rewrite IH; lia]. Qed.

Lemma exchanges_roles : forall qa i e,
  nth_error (exchanges qa) i = Some e ->
  role e = if Nat.even i then "user" else "assistant".
Proof.
  induction qa as [|[q r] qa IH]; intros i e H.
  - destruct i; discriminate.
  - destruct i as [|[|i]]; simpl in H.
    + now inversion H.
    + now inversion H.
    + change (Nat.even (S (S i))) with (Nat.even i). now apply IH.
Qed.

(** ** Turns *)

Lemma before_chat_messages E w :
  button_new_conversation E = false ->
  messages (ss (snd (before_chat E w))) = Some (transcript w).
Proof.
  intros Hb. unfold before_chat. cbn [run_steps]. unfold bind at 1.
  destruct (init_session_state_spec w) as (Hf & Hm & _).
  destruct (init_session_state w) as [r1 w1]. cbn in Hf, Hm. subst r1.
  rewrite <- Hm.
  assert (H : steps same_messages
                (sidebar E ;;; init_block E ;;; display ;;; ret tt)).
  { frame idtac.
    - now apply sidebar_messages.
    - apply init_block_messages.
    - apply same_session_messages, display_session. }
  apply H.
Qed.

Lemma handle_input_success E w q ag old a :
  messages (ss w) = Some old ->
  agent (ss w) = Some (Some ag) ->
  agent_run E ag q = Ret a ->
  messages (ss (snd (handle_input E q w)))
    = Some (old ++ exchanges [(q, a)])%list.
Proof.
  intros Hm Ha Hr. unfold handle_input. run. rewrite Hm. cbn. rewrite Ha. cbn.
  rewrite Hr. cbn.
  destruct (experimental_rerun E) as [[]|[msg|n]]; cbn;
    now rewrite <- app_assoc.
Qed.

Lemma script_split E w :
  script E w = (before_chat E ;;; chat_block E ;;; emit AtexitRegister ;;; ret tt) w.
Proof.
  unfold script, script_steps, before_chat.
  change [init_session_state; sidebar E; init_block E; display; chat_block E;
          emit AtexitRegister]
    with ([init_session_state; sidebar E; init_block E; display]
            ++ [chat_block E; emit AtexitRegister])%list.
  rewrite run_steps_app. reflexivity.
Qed.

Lemma successful_turn_appends E w :
  successful_turn E w = true ->
  exists q a ag,
    chat_input E = Some q /\
    agent (ss (snd (before_chat E w))) = Some (Some ag) /\
    agent_run E ag q = Ret a /\
    transcript (snd (script E w)) = (transcript w ++ exchanges [(q, a)])%list.
Proof.
  unfold successful_turn. intros H.
  apply andb_prop in H. destruct H as [Hb H].
  apply negb_true_iff in Hb.
  pose proof (before_chat_messages E w Hb) as Hm.
  destruct (chat_input E) as [[|ch s]|] eqn:Hin; try discriminate.
  destruct (before_chat E w) as [[[]|t] w4] eqn:Hbc; try discriminate.
  cbn in Hm.
  destruct (agent (ss w4)) as [[ag|]|] eqn:Ha; try discriminate.
  destruct (agent_run E ag (String ch s)) as [a|t] eqn:Hr; try discriminate.
  exists (String ch s), a, ag. repeat split; auto.
  rewrite script_split. unfold bind at 1. rewrite Hbc.
  pose proof (handle_input_success E w4 (String ch s) ag _ a Hm Ha Hr) as Hh.
  unfold bind at 1. unfold chat_block. rewrite Hin.
  destruct (handle_input E (String ch s) w4) as [[[]|t] w5]; cbn in Hh |- *;
    unfold transcript; cbn; now rewrite Hh.
Qed.

Lemma idle_keeps_transcript E w :
  successful_turn E w = false -> idle E = true ->
  transcript (snd (script E w)) = transcript w.
Proof.
  intros _ H. unfold idle in H.
  apply andb_prop in H. destruct H as [Hb Hin].
  apply negb_true_iff in Hb.
  pose proof (before_chat_messages E w Hb) as Hm.
  rewrite script_split. unfold bind at 1.
  destruct (before_chat E w) as [[[]|t] w4]; cbn in Hm |- *;
    [|unfold transcript at 1; now rewrite Hm].
  assert (Hc : chat_block E w4 = (Ret tt, w4)).
  { unfold chat_block. destruct (chat_input E) as [[|ch s]|];
      [reflexivity | discriminate | reflexivity]. }
  unfold bind at 1. rewrite Hc. unfold transcript at 1. cbn. now rewrite Hm.
Qed.

Lemma successful_turns_append : forall Es w,
  turns_or_idle Es w = true ->
  exists qa,
    List.length qa = count_turns Es w /\
    transcript (run_session Es w) = (transcript w ++ exchanges qa)%list.
Proof.
  induction Es as [|E Es IH]; intros w H; simpl in *.
  - exists []. now rewrite app_nil_r.
  - apply andb_prop in H. destruct H as [H1 H2].
    destruct (IH _ H2) as (qa & Hl & Hqa).
    destruct (successful_turn E w) eqn:Hturn.
    + destruct (successful_turn_appends E w Hturn)
        as (q & a & ag & _ & _ & _ & Ht).
      exists ((q, a) :: qa). split; [simpl; congruence|].
      rewrite Hqa, Ht, <- app_assoc. reflexivity.
    + exists qa. split; [exact Hl|].
      rewrite Hqa, (idle_keeps_transcript E w Hturn H1). reflexivity.
Qed.

(** C1. Starting from an empty transcript, after a session with N
    successful turns (and any idle executions of the script between them)
    the transcript has exactly 2N entries, the entries at even positions
    have role "user" and those at odd positions role "assistant"; and each
    successful turn appends to the transcript exactly the submitted message
    as a user entry followed by the agent's answer as an assistant entry. *)
Theorem transcript_after_successful_turns : forall Es w,
  transcript w = [] ->
  turns_or_idle Es w = true ->
  List.length (transcript (run_session Es w)) = 2 * count_turns Es w /\
  (forall i e, nth_error (transcript (run_session Es w)) i = Some e ->
               role e = if Nat.even i then "user" else "assistant") /\
  (forall E w0, successful_turn E w0 = true ->
     exists q a,
       chat_input E = Some q /\
       transcript (snd (script E w0))
         = (transcript w0 ++ [ {| role := "user"; content := q |};
                               {| role := "assistant"; content := a |} ])%list).
Proof.
  intros Es w Hw H.
  destruct (successful_turns_append Es w H) as (qa & Hl & Hqa).
  rewrite Hw in Hqa. cbn in Hqa. rewrite Hqa.
  split; [|split].
  - rewrite exchanges_length. congruence.
  - apply exchanges_roles.
  - intros E w0 H0.
    destruct (successful_turn_appends E w0 H0) as (q & a & ag & Hin & _ & _ & Ht).
    exists q, a. split; assumption.
Qed.

Lemma transcript_after_successful_turns_witness :
  transcript (fresh_world None) = [] /\
  turns_or_idle two_turns (fresh_world None) = true /\
  List.length (transcript (run_session two_turns (fresh_world None))) = 2 * 2.
Proof.
  split; [reflexivity | split; [reflexivity|]].
  exact (proj1 (transcript_after_successful_turns
                  two_turns (fresh_world None) eq_refl eq_refl)).
Defined.

(** C3. When the agent's single-turn call raises an exception after the
    user message was appended, the handler catches it and shows
    "Error: <message>"; the transcript is the old one followed by the user
    entry alone, so an even length becomes odd. *)
Theorem failed_turn_keeps_user_entry : forall E w q ag old msg,
  chat_input E = Some q -> q <> "" ->
  messages (ss w) = Some old ->
  agent (ss w) = Some (Some ag) ->
  agent_run E ag q = Throw (Exc msg) ->
  fst (chat_block E w) = Ret tt /\
  messages (ss (snd (chat_block E w)))
    = Some (old ++ [ {| role := "user"; content := q |} ])%list /\
  log (snd (chat_block E w))
    = (log w ++ [ StSpinner "Thinking..."; AgentRun ag q;
                  StError ("Error: " ++ msg) ])%list /\
  (Nat.even (List.length old) = true ->
   Nat.odd (List.length (transcript (snd (chat_block E w)))) = true).
Proof.
  intros E w q ag old msg Hin Hq Hm Ha Hr.
  unfold chat_block. rewrite Hin. destruct q as [|ch s]; [congruence|].
  unfold handle_input, transcript. run. rewrite Hm. cbn. rewrite Ha. cbn.
  rewrite Hr. cbn. repeat split.
  - now rewrite <- !app_assoc.
  - intros He. rewrite length_app. cbn. rewrite Nat.add_1_r, Nat.odd_succ.
    exact He.
Qed.

Lemma failed_turn_keeps_user_entry_witness :
  chat_input failing_env = Some "hello" /\
  "hello" <> "" /\
  messages (ss (session_with [] (Some sample_agent) (Some (MCPClient 0))))
  = Some [] /\
  agent (ss (session_with [] (Some sample_agent) (Some (MCPClient 0))))
  = Some (Some sample_agent) /\
  agent_run failing_env sample_agent "hello" = Throw (Exc "connection refused") /\
  messages (ss (snd (chat_block failing_env
                       (session_with [] (Some sample_agent)
                          (Some (MCPClient 0))))))
  = Some [ {| role := "user"; content := "hello" |} ].
Proof.
  assert (Hq : "hello" <> "") by discriminate.
  repeat (split; [first [reflexivity | exact Hq]|]).
  exact (proj1 (proj2 (failed_turn_keeps_user_entry failing_env
           (session_with [] (Some sample_agent) (Some (MCPClient 0)))
           "hello" sample_agent [] "connection refused"
           eq_refl Hq eq_refl eq_refl eq_refl))).
Defined.

(** C10. A message submitted while the agent handle is absent is still
    appended as a user entry; "Agent is not initialized..." is shown; no
    assistant entry is appended; and no exception leaves the handler: it
    returns, or stops with the control signal of the rerun request. *)
Theorem missing_agent_leaves_user_entry : forall E w q old,
  chat_input E = Some q -> q <> "" ->
  messages (ss w) = Some old ->
  agent (ss w) = Some None ->
  messages (ss (snd (chat_block E w)))
    = Some (old ++ [ {| role := "user"; content := q |} ])%list /\
  (exists rest,
     log (snd (chat_block E w))
     = (log w ++ StSpinner "Thinking..."
          :: StError "Agent is not initialized. Please try restarting the app."
          :: ExperimentalRerun :: rest)%list /\
     Forall (fun e => exists m, e = StError m) rest) /\
  (forall msg, fst (chat_block E w) <> Throw (Exc msg)) /\
  (forall n, fst (chat_block E w) = Throw (Ctl n) ->
             experimental_rerun E = Throw (Ctl n)).
Proof.
  intros E w q old Hin Hq Hm Ha.
  unfold chat_block. rewrite Hin. destruct q as [|ch s]; [congruence|].
  unfold handle_input. run. rewrite Hm. cbn. rewrite Ha. cbn.
  destruct (experimental_rerun E) as [[]|[msg|n]]; cbn; repeat split;
    try discriminate; try congruence.
  - exists []. split; [now rewrite <- !app_assoc | constructor].
  - exists [StError ("Error: " ++ msg)]. split; [now rewrite <- !app_assoc|].
    repeat constructor. eauto.
  - exists []. split; [now rewrite <- !app_assoc | constructor].
Qed.

Lemma missing_agent_leaves_user_entry_witness :
  chat_input (with_input idle_env "hello") = Some "hello" /\
  "hello" <> "" /\
  messages (ss (session_with [] None None)) = Some [] /\
  agent (ss (session_with [] None None)) = Some None /\
  messages (ss (snd (chat_block (with_input idle_env "hello")
                       (session_with [] None None))))
  = Some [ {| role := "user"; content := "hello" |} ].
Proof.
  assert (Hq : "hello" <> "") by discriminate.
  repeat (split; [first [reflexivity | exact Hq]|]).
  exact (proj1 (missing_agent_leaves_user_entry (with_input idle_env "hello")
           (session_with [] None None) "hello" []
           eq_refl Hq eq_refl eq_refl)).
Defined.

(** ** Configuration loader *)

(** C2, as stated: a configuration without the models key would give the
    same list as a missing or malformed file.  It does not. *)
Lemma load_models_missing_key_counterexample :
  open_file no_models_env "browser_mcp.json" = Ret "<browser_mcp.json>" /\
  json_load no_models_env "<browser_mcp.json>"
  = Ret (JObj [("mcpServers", JObj [])]) /\
  dict_lookup "models" [("mcpServers", JObj [])] = None /\
  fst (load_models_body no_models_env (fresh_world None))
  = Ret (JArr [JStr "qwen-qwq-32b"]) /\
  fst (load_models_body no_models_env (fresh_world None)) <> Ret fallback_models.
Proof.
  repeat (split; [reflexivity|]). discriminate.
Qed.

Lemma load_models_body_returns E w :
  (exists v, fst (load_models_body E w) = Ret v) /\
  ss (snd (load_models_body E w)) = ss w.
Proof.
  unfold load_models_body. run.
  destruct (open_file E "browser_mcp.json") as [text|t]; cbn; eauto.
  destruct (json_load E text) as [config|t]; cbn; eauto.
  destruct (config_get config "models" default_models); cbn; eauto.
Qed.

Lemma load_models_body_parsed E w text config :
  open_file E "browser_mcp.json" = Ret text ->
  json_load E text = Ret config ->
  fst (load_models_body E w)
  = match config_get config "models" default_models with
    | Ret v => Ret v
    | Throw _ => Ret fallback_models
    end.
Proof.
  intros Ho Hj. unfold load_models_body. run. rewrite Ho. cbn. rewrite Hj. cbn.
  destruct (config_get config "models" default_models); reflexivity.
Qed.

Lemma load_models_body_open_fails E w t :
  open_file E "browser_mcp.json" = Throw t ->
  fst (load_models_body E w) = Ret fallback_models.
Proof. intros Ho. unfold load_models_body. run. now rewrite Ho. Qed.

Lemma load_models_body_parse_fails E w text t :
  open_file E "browser_mcp.json" = Ret text ->
  json_load E text = Throw t ->
  fst (load_models_body E w) = Ret fallback_models.
Proof.
  intros Ho Hj. unfold load_models_body. run. rewrite Ho. cbn. now rewrite Hj.
Qed.

(** C2, amended. The loader never raises.  It returns the value stored under
    "models" when the file opens and parses to an object with that key; the
    one-element default list when the object has no such key; and the
    three-element fallback list when opening or parsing raises or the parsed
    value is not an object.  It leaves the session state alone, and the
    cached loader the sidebar calls never raises either. *)
Theorem load_models_body_spec : forall E w,
  (exists v, fst (load_models_body E w) = Ret v) /\
  (exists v, fst (load_models E w) = Ret v) /\
  ss (snd (load_models_body E w)) = ss w /\
  (forall text fields v,
     open_file E "browser_mcp.json" = Ret text ->
     json_load E text = Ret (JObj fields) ->
     dict_lookup "models" fields = Some v ->
     fst (load_models_body E w) = Ret v) /\
  (forall text fields,
     open_file E "browser_mcp.json" = Ret text ->
     json_load E text = Ret (JObj fields) ->
     dict_lookup "models" fields = None ->
     fst (load_models_body E w) = Ret (JArr [JStr "qwen-qwq-32b"])) /\
  (forall t,
     open_file E "browser_mcp.json" = Throw t ->
     fst (load_models_body E w) = Ret fallback_models) /\
  (forall text t,
     open_file E "browser_mcp.json" = Ret text ->
     json_load E text = Throw t ->
     fst (load_models_body E w) = Ret fallback_models) /\
  (forall text config,
     open_file E "browser_mcp.json" = Ret text ->
     json_load E text = Ret config ->
     (forall fields, config <> JObj fields) ->
     fst (load_models_body E w) = Ret fallback_models).
Proof.
  intros E w.
  destruct (load_models_body_returns E w) as [[v Hv] Hs].
  split; [eauto|]. split; [|split; [exact Hs|]].
  { unfold load_models. destruct (models_cache w); [cbn; eauto|].
    destruct (load_models_body E w) as [[v'|t] w']; cbn in *; eauto. }
  repeat split.
  - intros text fields v' Ho Hj Hd.
    rewrite (load_models_body_parsed E w text _ Ho Hj). cbn. now rewrite Hd.
  - intros text fields Ho Hj Hd.
    rewrite (load_models_body_parsed E w text _ Ho Hj). cbn. now rewrite Hd.
  - intros t. apply load_models_body_open_fails.
  - intros text t. apply load_models_body_parse_fails.
  - intros text config Ho Hj Hn.
    rewrite (load_models_body_parsed E w text _ Ho Hj).
    destruct config; cbn; try reflexivity. now destruct (Hn fields).
Qed.

Lemma load_models_body_spec_witness :
  open_file idle_env "browser_mcp.json" = Ret "<browser_mcp.json>" /\
  json_load idle_env "<browser_mcp.json>"
  = Ret (JObj [("models", JArr [JStr "groq-llama"; JStr "qwen-qwq-32b"])]) /\
  dict_lookup "models"
    [("models", JArr [JStr "groq-llama"; JStr "qwen-qwq-32b"])]
  = Some (JArr [JStr "groq-llama"; JStr "qwen-qwq-32b"]) /\
  fst (load_models_body idle_env (fresh_world None))
  = Ret (JArr [JStr "groq-llama"; JStr "qwen-qwq-32b"]).
Proof.
  split; [reflexivity | split; [reflexivity | split; [reflexivity|]]].
  exact (proj1 (proj2 (proj2 (proj2
           (load_models_body_spec idle_env (fresh_world None)))))
           "<browser_mcp.json>"
           [("models", JArr [JStr "groq-llama"; JStr "qwen-qwq-32b"])]
           (JArr [JStr "groq-llama"; JStr "qwen-qwq-32b"])
           eq_refl eq_refl eq_refl).
Defined.

(** ** Agent initializer *)

Lemma initialize_agent_catches E w msg :
  fst (initialize_agent_body E w) = Throw (Exc msg) ->
  fst (initialize_agent E w) = Ret (None, None) /\
  log (snd (initialize_agent E w))
  = (log (snd (initialize_agent_body E w))
       ++ [StError ("Error initializing agent: " ++ msg)])%list.
Proof.
  unfold initialize_agent, try_except. intros H.
  destruct (initialize_agent_body E w) as [r w1]. cbn in H. subst r.
  run. auto.
Qed.

Lemma construction_raises_body E w msg :
  construction_raises E (ss w) msg ->
  fst (initialize_agent_body E w) = Throw (Exc msg).
Proof.
  intros H. unfold initialize_agent_body, new_chat_groq, new_mcp_agent. run.
  destruct H as [Hc | c model groq Hc Hm Hin Hl | c model groq Hc Hm Hin Hl Ha];
    rewrite Hc; cbn; try reflexivity;
    rewrite Hm; cbn; rewrite Hin; cbn;
    destruct groq; rewrite Hl; cbn; try reflexivity;
    rewrite Ha; reflexivity.
Qed.

(** C5. When the client, the LLM or the agent constructor raises an
    exception during initialization, the initializer returns (None, None),
    the last thing it displays is the error "Error initializing agent:
    <message>", and the session state, transcript included, is unchanged. *)
Theorem initialize_agent_failure : forall E w msg,
  construction_raises E (ss w) msg ->
  fst (initialize_agent E w) = Ret (None, None) /\
  (exists calls,
     log (snd (initialize_agent E w))
     = (log w ++ calls ++ [StError ("Error initializing agent: " ++ msg)])%list) /\
  ss (snd (initialize_agent E w)) = ss w /\
  transcript (snd (initialize_agent E w)) = transcript w.
Proof.
  intros E w msg H.
  apply construction_raises_body in H.
  destruct (initialize_agent_catches E w msg H) as [Hr Hl].
  pose proof (initialize_agent_session E w) as Hs. unfold same_session in Hs.
  split; [exact Hr|]. split; [|split; [exact Hs|]].
  - assert (Hb : steps log_grows (initialize_agent_body E)).
    { unfold initialize_agent_body, new_chat_groq, new_mcp_agent.
      frame log_leaf. }
    destruct (Hb w) as [calls Hcalls].
    exists calls. now rewrite Hl, Hcalls, app_assoc.
  - unfold transcript. now rewrite Hs.
Qed.

Lemma initialize_agent_failure_witness :
  construction_raises no_client_env
    (ss (session_with [] None None)) "no such file" /\
  fst (initialize_agent no_client_env
         (session_with [] None None)) = Ret (None, None).
Proof.
  assert (H : construction_raises
                no_client_env
                (ss (session_with [] None None)) "no such file")
    by (apply client_construction_raises; reflexivity).
  split; [exact H|].
  exact (proj1 (initialize_agent_failure _ _ _ H)).
Defined.

(** C4. For a selected model name, the initializer passes to ChatGroq the
    name itself when "groq" occurs in it as a substring and "qwen-qwq-32b"
    otherwise; it builds no other LLM binding, and when the constructors
    succeed the agent it returns is bound to that one. *)
Theorem llm_chosen_by_substring : forall E w name c,
  from_config_file E "browser_mcp.json" = Ret c ->
  selected_model (ss w) = Some (JStr name) ->
  forall target,
  target = (if contains "groq" name then JStr name else JStr "qwen-qwq-32b") ->
  (contains "groq" name = true <->
   exists pre post, name = pre ++ "groq" ++ post) /\
  (exists rest,
     log (snd (initialize_agent E w))
     = (log w ++ FromConfigFile "browser_mcp.json" :: NewChatGroq target :: rest)%list
     /\ forallb (fun e => negb (is_new_chat_groq e)) rest = true) /\
  (chat_groq E target = Ret tt ->
   mcp_agent E (ChatGroq target) c = Ret tt ->
   fst (initialize_agent E w)
   = Ret (Some c, Some {| llm := ChatGroq target; agent_client := c;
                          max_steps := 15; memory_enabled := true |})).
Proof.
  intros E w name c Hc Hm target ->.
  split; [apply contains_spec|].
  unfold initialize_agent, initialize_agent_body, new_chat_groq, new_mcp_agent.
  run. rewrite Hc. cbn. rewrite Hm. cbn.
  destruct (contains "groq" name); cbn.
  - destruct (chat_groq E (JStr name)) as [[]|[msg|n]]; cbn.
    + destruct (mcp_agent E (ChatGroq (JStr name)) c) as [[]|[msg|n]]; cbn;
        (split; [eexists; split; [rewrite <- !app_assoc; reflexivity|reflexivity]
                | congruence]).
    + split; [eexists; split; [rewrite <- !app_assoc; reflexivity|reflexivity]
             | congruence].
    + split; [eexists; split; [rewrite <- !app_assoc; reflexivity|reflexivity]
             | congruence].
  - destruct (chat_groq E (JStr "qwen-qwq-32b")) as [[]|[msg|n]]; cbn.
    + destruct (mcp_agent E (ChatGroq (JStr "qwen-qwq-32b")) c) as [[]|[msg|n]];
        cbn;
        (split; [eexists; split; [rewrite <- !app_assoc; reflexivity|reflexivity]
                | congruence]).
    + split; [eexists; split; [rewrite <- !app_assoc; reflexivity|reflexivity]
             | congruence].
    + split; [eexists; split; [rewrite <- !app_assoc; reflexivity|reflexivity]
             | congruence].
Qed.

Lemma llm_chosen_by_substring_witness :
  from_config_file idle_env "browser_mcp.json" = Ret (MCPClient 0) /\
  selected_model (ss (session_with [] None None)) = Some (JStr "groq-llama") /\
  fst (initialize_agent idle_env (session_with [] None None))
  = Ret (Some (MCPClient 0),
         Some {| llm := ChatGroq (JStr "groq-llama");
                 agent_client := MCPClient 0;
                 max_steps := 15; memory_enabled := true |}).
Proof.
  split; [reflexivity | split; [reflexivity|]].
  exact (proj2 (proj2 (llm_chosen_by_substring idle_env
                         (session_with [] None None) "groq-llama" (MCPClient 0)
                         eq_refl eq_refl (JStr "groq-llama") eq_refl))
           eq_refl eq_refl).
Defined.

(** ** New conversation *)

Lemma clear_calls_app l1 l2 :
  clear_calls (l1 ++ l2) = clear_calls l1 + clear_calls l2.
Proof.
  induction l1 as [|e l1 IH]; simpl; [reflexivity|].
  destruct e; simpl; rewrite IH; reflexivity.
Qed.

Lemma close_calls_app l1 l2 :
  close_calls (l1 ++ l2) = close_calls l1 + close_calls l2.
Proof.
  induction l1 as [|e l1 IH]; simpl; [reflexivity|].
  destruct e; simpl; rewrite IH; reflexivity.
Qed.

(** The handler of the button sets the transcript to the empty list and
    invokes the agent's memory-clear operation once when an agent handle is
    present and not at all when it is absent. *)
Lemma new_conversation_resets : forall E w a,
  agent (ss w) = Some a ->
  messages (ss (snd (new_conversation E w))) = Some [] /\
  log (snd (new_conversation E w))
  = (log w ++ match a with
              | Some ag => [ClearConversationHistory ag]
              | None => []
              end)%list /\
  (clear_calls (log (snd (new_conversation E w))) = clear_calls (log w) + 1
   <-> a <> None) /\
  (clear_calls (log (snd (new_conversation E w))) = clear_calls (log w)
   <-> a = None).
Proof.
  intros E w a Ha. unfold new_conversation. run. rewrite Ha. cbn.
  destruct a as [ag|]; cbn.
  - split; [reflexivity|]. split; [reflexivity|].
    rewrite clear_calls_app. cbn. split; split; intros; try congruence; lia.
  - split; [reflexivity|]. split; [now rewrite app_nil_r|].
    split; split; intros; try congruence; lia.
Qed.

(** ** Shutdown hook *)

(** One run of the shutdown hook invokes close-all-sessions once when the
    session state holds a client handle that reports at least one open
    session, and not at all otherwise; it changes nothing else. *)
Lemma cleanup_closes_once : forall E w,
  ((exists c, client (ss w) = Some (Some c) /\ client_sessions E c <> [] /\
              log (snd (cleanup E w)) = (log w ++ [CloseAllSessions c])%list)
   \/
   ((forall c, client (ss w) = Some (Some c) -> client_sessions E c = []) /\
    log (snd (cleanup E w)) = log w)) /\
  (close_calls (log (snd (cleanup E w))) = close_calls (log w) + 1
   <-> exists c, client (ss w) = Some (Some c) /\ client_sessions E c <> []) /\
  (close_calls (log (snd (cleanup E w))) = close_calls (log w)
   <-> ~ exists c, client (ss w) = Some (Some c) /\ client_sessions E c <> []) /\
  ss (snd (cleanup E w)) = ss w.
Proof.
  intros E w. unfold cleanup. run.
  destruct (client (ss w)) as [[c|]|] eqn:Hc; cbn.
  - destruct (client_sessions E c) as [|s rest] eqn:Hs; cbn.
    + split; [right; split; [intros c' H'; congruence | reflexivity]|].
      split; [split; [lia | intros [c' [H1 H2]]; congruence]|].
      split; [split; [intros _ [c' [H1 H2]]; congruence | reflexivity]|].
      reflexivity.
    + assert (Hex : exists c', Some (Some c) = Some (Some c') /\
                               client_sessions E c' <> [])
        by (exists c; split; [reflexivity | rewrite Hs; discriminate]).
      split; [left; exists c; repeat split; rewrite Hs; discriminate|].
      rewrite close_calls_app. cbn.
      split; [split; [intros _; exact Hex | reflexivity]|].
      split; [split; [lia | intros H; destruct (H Hex)]|].
      reflexivity.
  - split; [right; split; [intros c' H'; discriminate | reflexivity]|].
    split; [split; [lia | intros [c' [H1 H2]]; discriminate]|].
    split; [split; [intros _ [c' [H1 H2]]; discriminate | reflexivity]|].
    reflexivity.
  - split; [right; split; [intros c' H'; discriminate | reflexivity]|].
    split; [split; [lia | intros [c' [H1 H2]]; discriminate]|].
    split; [split; [intros _ [c' [H1 H2]]; discriminate | reflexivity]|].
    reflexivity.
Qed.

(** ** Invariant of the handles *)

Lemma Forall_firstn_steps R k (l : list (M unit)) :
  Forall (steps R (A:=unit)) l -> Forall (steps R (A:=unit)) (firstn k l).
Proof.
  intros H. revert k. induction H; intros [|k]; simpl; constructor; auto.
Qed.

(** C8. In every reachable state of a session - after the state
    initialisation, the sidebar with its reset, the agent initialization,
    the display, the turn handling, and the shutdown hook - the agent handle
    and the client handle are both present or both absent. *)
Theorem handles_always_paired : forall w,
  reachable w -> handles_paired (ss w).
Proof.
  induction 1 as [cache | E k w Hw IH | E w Hw IH].
  - reflexivity.
  - assert (H : steps keeps_paired (run_steps (firstn k (script_steps E)))).
    { apply steps_run_steps; [exact _|].
      apply Forall_firstn_steps, script_steps_paired. }
    apply H, IH.
  - pose proof (cleanup_session E w) as H. unfold same_session in H.
    now rewrite H.
Qed.

Lemma handles_always_paired_witness :
  reachable (snd (script no_client_env
                    (snd (script (with_input idle_env "hello")
                            (fresh_world None))))) /\
  handles_paired
    (ss (snd (script no_client_env
                (snd (script (with_input idle_env "hello")
                        (fresh_world None)))))).
Proof.
  assert (H : reachable
                (snd (script no_client_env
                        (snd (script (with_input idle_env "hello")
                                (fresh_world None)))))).
  { apply (reachable_blocks
             no_client_env 6).
    apply (reachable_blocks (with_input idle_env "hello") 6).
    apply reachable_fresh. }
  split; [exact H|].
  exact (handles_always_paired _ H).
Defined.

(** ** Retrying the construction *)







Lemma init_block_when_needed E w a c :
  agent (ss w) = Some a -> client (ss w) = Some c ->
  handle_present (Some a) = false \/ handle_present (Some c) = false ->
  init_block E w
  = (emit (StSpinner "Initializing agent...") ;;;
     r <- initialize_agent E ;;
     set_client (fst r) ;;;
     set_agent (snd r) ;;;
     a' <- attr "agent" agent ;;
     match a' with
     | Some _ => emit (StSuccess "Agent initialized successfully!")
     | None =>
         st_error "Failed to initialize agent. Please check your configuration."
     end) w.
Proof.
  intros Ha Hc Habs. unfold init_block.
  unfold bind at 1. unfold attr at 1. unfold bind at 1. unfold get_ss at 1.
  rewrite Ha. unfold ret at 1.
  destruct a as [ag|]; cbn [is_none].
  - unfold bind at 1 2. unfold attr at 1. unfold bind at 1. unfold get_ss at 1.
    rewrite Hc. unfold ret at 1 2.
    destruct c as [cl|]; cbn [is_none]; [|reflexivity].
    destruct Habs; discriminate.
  - unfold bind at 1. unfold ret at 1. reflexivity.
Qed.



(** * Further properties of the script *)

#[export] Instance quiet_frame : FrameRel quiet.
Proof.
  split; unfold quiet.
  - auto.
  - intros a b c (?&?&?) (?&?&?). repeat split; congruence.
Qed.

#[export] Instance no_runs_frame : FrameRel no_runs.
Proof.
  split; unfold no_runs.
  - intros w. exists []. split; [now rewrite app_nil_r | reflexivity].
  - intros a b c (l1 & H1 & F1) (l2 & H2 & F2). exists (l1 ++ l2)%list.
    split; [now rewrite H2, H1, app_assoc|].
    now rewrite filter_app, F1, F2.
Qed.

#[export] Instance settled_frame : FrameRel settled.
Proof.
  split; unfold settled.
  - auto.
  - intros a b c Hab Hbc Ha Hc.
    destruct (Hab Ha Hc) as (Hba & Hbcl & Hbn).
    rewrite <- Hba in Ha. rewrite <- Hbcl in Hc.
    destruct (Hbc Ha Hc) as (? & ? & ?). repeat split; congruence.
Qed.

#[export] Instance cache_kept_frame : FrameRel cache_kept.
Proof. split; unfold cache_kept; auto. Qed.

#[export] Instance keys_kept_frame : FrameRel keys_kept.
Proof.
  split; unfold keys_kept.
  - auto.
  - intros a b c (?&?&?) (?&?&?). repeat split; auto.
Qed.

#[export] Instance keeps_bound_frame : FrameRel keeps_bound.
Proof. split; unfold keeps_bound; auto. Qed.

Lemma constructor_calls_app l1 l2 :
  constructor_calls (l1 ++ l2) = constructor_calls l1 + constructor_calls l2.
Proof. unfold constructor_calls. now rewrite filter_app, length_app. Qed.

Ltac prim_step :=
  intros;
  unfold steps, st_error, set_messages, set_agent, set_client,
    set_selected_model, bind, get_ss, put_ss, emit;
  intros;
  cbn [fst snd ss log models_cache messages agent client selected_model].

Ltac quiet_leaf :=
  prim_step; unfold quiet;
  cbn [fst snd ss log models_cache messages agent client selected_model];
  rewrite ?constructor_calls_app; cbn; repeat split; lia.

Ltac runs_leaf :=
  prim_step; unfold no_runs;
  cbn [fst snd ss log models_cache messages agent client selected_model];
  first [ exists []; split; [now rewrite app_nil_r | reflexivity]
        | eexists; split; reflexivity ].

Ltac each_step :=
  repeat match goal with
         | |- Forall _ (_ :: _) => apply Forall_cons
         | |- Forall _ [] => apply Forall_nil
         end.

Ltac cache_leaf := intros; prim; unfold cache_kept; cbn; auto.

Ltac keys_leaf :=
  intros; prim; intros; unfold keys_kept; cbn; repeat split; auto; discriminate.

(** ** The cached model list *)

Lemma load_models_cache_kept E : steps cache_kept (load_models E).
Proof.
  intros w v Hv. unfold load_models. rewrite Hv. exact Hv.
Qed.

Lemma initialize_agent_cache E : steps cache_kept (initialize_agent E).
Proof.
  unfold initialize_agent, initialize_agent_body, new_chat_groq, new_mcp_agent.
  frame cache_leaf.
Qed.

Lemma script_cache_kept E : steps cache_kept (script E).
Proof.
  unfold script. apply steps_run_steps; [exact _|].
  unfold script_steps. each_step.
  - unfold init_session_state. frame cache_leaf.
  - unfold sidebar, new_conversation. frame cache_leaf.
    apply load_models_cache_kept.
  - unfold init_block. frame cache_leaf. apply initialize_agent_cache.
  - assert (H : forall l i, steps cache_kept (show_messages i l)).
    { induction l; intros i; simpl; frame cache_leaf; apply IHl. }
    unfold display. frame cache_leaf. apply H.
  - unfold chat_block, handle_input, append_message. frame cache_leaf.
  - cache_leaf.
Qed.

(** X1. The model list is read at most once per process.  On a cache miss
    the loader returns a value and caches it - the fallback list included,
    when the file is missing or malformed - and from then on every call,
    in this execution or after any number of further executions of the
    script, returns that value without opening the file, whatever the file
    holds by then. *)
Theorem load_models_reads_once : forall E w,
  models_cache w = None ->
  exists v,
    fst (load_models E w) = Ret v /\
    fst (load_models_body E w) = Ret v /\
    models_cache (snd (load_models E w)) = Some v /\
    forall Es E' ,
      load_models E' (run_session Es (snd (load_models E w)))
      = (Ret v, run_session Es (snd (load_models E w))).
Proof.
  intros E w Hnone.
  destruct (load_models_body_returns E w) as [[v Hv] _].
  exists v.
  assert (Hl : fst (load_models E w) = Ret v /\
               models_cache (snd (load_models E w)) = Some v).
  { unfold load_models. rewrite Hnone.
    destruct (load_models_body E w) as [r w1]. cbn in Hv. subst r. cbn. auto. }
  destruct Hl as [Hr Hc]. repeat split; auto.
  intros Es E'.
  assert (Hs : forall Es w0, models_cache w0 = Some v ->
                             models_cache (run_session Es w0) = Some v).
  { induction Es0 as [|E0 Es0 IH]; intros w0 H0; simpl; [exact H0|].
    apply IH. apply (script_cache_kept E0 w0 v H0). }
  specialize (Hs Es _ Hc).
  set (w1 := run_session Es (snd (load_models E w))) in *.
  unfold load_models. now rewrite Hs.
Qed.

Lemma load_models_reads_once_witness :
  models_cache (fresh_world None) = None /\
  load_models idle_env
    (run_session [no_client_env; idle_env]
       (snd (load_models (with_config idle_env (Throw (Exc "bad json")))
               (fresh_world None))))
  = (Ret fallback_models,
     run_session [no_client_env; idle_env]
       (snd (load_models (with_config idle_env (Throw (Exc "bad json")))
               (fresh_world None)))).
Proof.
  split; [reflexivity|].
  destruct (load_models_reads_once
              (with_config idle_env (Throw (Exc "bad json")))
              (fresh_world None) eq_refl) as (v & Hv & _ & _ & Hlater).
  cbn in Hv. injection Hv as <-.
  exact (Hlater [no_client_env; idle_env] idle_env).
Defined.

(** ** Session state initialisation *)

(** X2. The initialisation at the top of the script only fills in what is
    missing: an absent transcript becomes the empty list and an absent
    handle becomes None, while an existing transcript, existing handles,
    the selected model, the cache and the log are left as they are.  It
    never raises, and running it again changes nothing. *)
Theorem init_session_state_fills_gaps : forall w,
  fst (init_session_state w) = Ret tt /\
  messages (ss (snd (init_session_state w)))
  = Some (match messages (ss w) with Some l => l | None => [] end) /\
  agent (ss (snd (init_session_state w)))
  = Some (match agent (ss w) with Some a => a | None => None end) /\
  client (ss (snd (init_session_state w)))
  = Some (match client (ss w) with Some c => c | None => None end) /\
  selected_model (ss (snd (init_session_state w))) = selected_model (ss w) /\
  models_cache (snd (init_session_state w)) = models_cache w /\
  log (snd (init_session_state w)) = log w /\
  init_session_state (snd (init_session_state w))
  = (Ret tt, snd (init_session_state w)).
Proof.
  intros [[m a c sm] cache lg]. unfold init_session_state.
  destruct m, a, c; run; repeat split; reflexivity.
Qed.

(** ** Transcript display *)

Lemma show_messages_cons i msg l w :
  show_messages i (msg :: l) w
  = show_messages (S i) l
      {| ss := ss w; models_cache := models_cache w;
         log := (log w ++ [if String.eqb (role msg) "user"
                           then ChatMessage (content msg) true "user_" i
                           else ChatMessage (content msg) false "ai_" i])%list |}.
Proof. simpl. unfold bind. destruct (String.eqb (role msg) "user"); reflexivity. Qed.

Lemma show_messages_spec : forall l i w,
  fst (show_messages i l w) = Ret tt /\
  ss (snd (show_messages i l w)) = ss w /\
  exists shown,
    log (snd (show_messages i l w)) = (log w ++ shown)%list /\
    List.length shown = List.length l /\
    forall k e, nth_error l k = Some e ->
      exists ev, nth_error shown k = Some ev /\ shown_as (i + k) e ev.
Proof.
  induction l as [|msg l IH]; intros i w.
  - simpl. repeat split. exists []. rewrite app_nil_r. repeat split.
    intros k e H. destruct k; discriminate.
  - rewrite show_messages_cons.
    set (ev := if String.eqb (role msg) "user"
               then ChatMessage (content msg) true "user_" i
               else ChatMessage (content msg) false "ai_" i).
    destruct (IH (S i) {| ss := ss w; models_cache := models_cache w;
                          log := (log w ++ [ev])%list |})
      as (Hf & Hs & shown & Hl & Hn & Hk).
    split; [exact Hf|]. split; [exact Hs|].
    exists (ev :: shown). cbn in Hl.
    split; [rewrite Hl; now rewrite <- app_assoc|].
    split; [cbn; congruence|].
    intros [|k] e H; cbn in H |- *.
    + injection H as <-. exists ev. split; [reflexivity|].
      rewrite Nat.add_0_r. unfold ev, shown_as.
      destruct (String.eqb_spec (role msg) "user"); auto.
    + destruct (Hk k e H) as (ev' & Hev & Hsh). exists ev'.
      split; [exact Hev|]. now rewrite Nat.add_succ_r.
Qed.

Lemma display_returns w l :
  messages (ss w) = Some l ->
  fst (display w) = Ret tt /\ ss (snd (display w)) = ss w.
Proof.
  intros Hm. unfold display.
  unfold bind at 1. unfold attr, bind, get_ss. rewrite Hm. unfold ret at 1.
  destruct l as [|msg l]; [cbn; auto|]. cbn [List.length Nat.eqb].
  destruct (show_messages_spec (msg :: l) 0 w) as (Hf & Hs & _). auto.
Qed.

(** X3. The display shows an empty transcript as the single hint "Send a
    message to start the conversation!"; otherwise it shows every entry
    exactly once, in transcript order, the entry at position i as a user
    bubble keyed user_i when its role is "user" and as an agent bubble
    keyed ai_i otherwise.  It returns normally and leaves the session state
    as it was. *)
Theorem display_shows_transcript : forall w l,
  messages (ss w) = Some l ->
  fst (display w) = Ret tt /\
  ss (snd (display w)) = ss w /\
  exists shown,
    log (snd (display w)) = (log w ++ shown)%list /\
    (l = [] ->
     shown = [StInfo "Send a message to start the conversation!"]) /\
    (l <> [] ->
     List.length shown = List.length l /\
     forall i e, nth_error l i = Some e ->
       exists ev, nth_error shown i = Some ev /\ shown_as i e ev).
Proof.
  intros w l Hm. unfold display.
  unfold bind at 1. unfold attr, bind, get_ss. rewrite Hm. unfold ret at 1.
  destruct l as [|msg l].
  - cbn. repeat split. eexists. split; [reflexivity|].
    split; [reflexivity | congruence].
  - cbn [List.length Nat.eqb].
    destruct (show_messages_spec (msg :: l) 0 w)
      as (Hf & Hs & shown & Hl & Hn & Hk).
    repeat split; auto. exists shown. split; [exact Hl|].
    split; [discriminate|]. intros _. split; [exact Hn | exact Hk].
Qed.

Lemma display_shows_transcript_witness :
  messages (ss (session_with (exchanges [("hi", "hello")]) None None))
  = Some (exchanges [("hi", "hello")]) /\
  fst (display (session_with (exchanges [("hi", "hello")]) None None)) = Ret tt.
Proof.
  split; [reflexivity|].
  exact (proj1 (display_shows_transcript
                  (session_with (exchanges [("hi", "hello")]) None None)
                  (exchanges [("hi", "hello")]) eq_refl)).
Defined.

(** ** The handles once built *)

Lemma init_session_state_values : forall w,
  init_session_state w
  = (Ret tt,
     {| ss := {| messages := Some (match messages (ss w) with
                                   | Some l => l | None => [] end);
                 agent := Some (match agent (ss w) with
                                | Some a => a | None => None end);
                 client := Some (match client (ss w) with
                                 | Some c => c | None => None end);
                 selected_model := selected_model (ss w) |};
        models_cache := models_cache w; log := log w |}).
Proof.
  intros [[m a c sm] cache lg]. unfold init_session_state.
  destruct m, a, c; reflexivity.
Qed.

Lemma sidebar_quiet E : steps quiet (sidebar E).
Proof.
  unfold sidebar, new_conversation. frame quiet_leaf.
  apply steps_load_models; [exact _ | quiet_leaf ..].
Qed.

Lemma display_quiet : steps quiet display.
Proof.
  assert (H : forall l i, steps quiet (show_messages i l)).
  { induction l; intros i; simpl; frame quiet_leaf; apply IHl. }
  unfold display. frame quiet_leaf. apply H.
Qed.

Lemma chat_block_quiet E : steps quiet (chat_block E).
Proof. unfold chat_block, handle_input, append_message. frame quiet_leaf. Qed.

Lemma quiet_settled A (m : M A) : steps quiet m -> steps settled m.
Proof. intros H w _ _. apply H. Qed.

Lemma init_block_settled E : steps settled (init_block E).
Proof.
  intros w Ha Hc. unfold init_block. run.
  destruct (agent (ss w)) as [[ag|]|] eqn:Hag; try discriminate.
  destruct (client (ss w)) as [[cl|]|] eqn:Hcl; try discriminate.
  cbn. rewrite Hcl. cbn. auto.
Qed.

Lemma script_settled E : steps settled (script E).
Proof.
  unfold script. apply steps_run_steps; [exact _|].
  unfold script_steps. each_step.
  - intros w Ha Hc. rewrite init_session_state_values. cbn.
    destruct (agent (ss w)) as [a|]; [|discriminate].
    destruct (client (ss w)) as [c|]; [|discriminate]. auto.
  - apply quiet_settled, sidebar_quiet.
  - apply init_block_settled.
  - apply quiet_settled, display_quiet.
  - apply quiet_settled, chat_block_quiet.
  - apply quiet_settled. quiet_leaf.
Qed.

(** X4. Once both handles are present, no later execution of the script
    replaces them or calls a constructor again, whatever model is selected
    and whatever else happens: the agent keeps the LLM binding it was built
    with. *)
Theorem agent_never_rebuilt : forall Es w,
  handle_present (agent (ss w)) = true ->
  handle_present (client (ss w)) = true ->
  agent (ss (run_session Es w)) = agent (ss w) /\
  client (ss (run_session Es w)) = client (ss w) /\
  constructor_calls (log (run_session Es w)) = constructor_calls (log w).
Proof.
  induction Es as [|E Es IH]; intros w Ha Hc; simpl; [auto|].
  destruct (script_settled E w Ha Hc) as (Ha' & Hc' & Hn').
  rewrite <- Ha' in Ha. rewrite <- Hc' in Hc.
  destruct (IH _ Ha Hc) as (? & ? & ?). repeat split; congruence.
Qed.

Lemma agent_never_rebuilt_witness :
  handle_present
    (agent (ss (session_with [] (Some sample_agent) (Some (MCPClient 0)))))
  = true /\
  handle_present
    (client (ss (session_with [] (Some sample_agent) (Some (MCPClient 0)))))
  = true /\
  agent (ss (run_session
               [with_selectbox idle_env (fun _ _ => Ret (JStr "qwen-qwq-32b"));
                with_input idle_env "hello"]
               (session_with [] (Some sample_agent) (Some (MCPClient 0)))))
  = Some (Some sample_agent).
Proof.
  split; [reflexivity | split; [reflexivity|]].
  exact (proj1 (agent_never_rebuilt
                  [with_selectbox idle_env (fun _ _ => Ret (JStr "qwen-qwq-32b"));
                   with_input idle_env "hello"]
                  (session_with [] (Some sample_agent) (Some (MCPClient 0)))
                  eq_refl eq_refl)).
Defined.

(** ** The agent and its client *)

Lemma initialize_agent_built E w :
  match fst (initialize_agent E w) with
  | Ret (Some c, Some a) =>
      agent_client a = c /\ max_steps a = 15%Z /\ memory_enabled a = true
  | Ret (None, None) => True
  | Ret _ => False
  | Throw (Exc _) => False
  | Throw (Ctl _) => True
  end.
Proof.
  unfold initialize_agent, initialize_agent_body, new_chat_groq, new_mcp_agent.
  run.
  destruct (from_config_file E "browser_mcp.json") as [c|[msg|n]]; cbn; auto.
  destruct (selected_model (ss w)) as [model|]; cbn; auto.
  destruct (py_in "groq" model) as [[|]|[msg|n]]; cbn; auto.
  - destruct (chat_groq E model) as [[]|[msg|n]]; cbn; auto.
    destruct (mcp_agent E (ChatGroq model) c) as [[]|[msg|n]]; cbn; auto.
  - destruct (chat_groq E (JStr "qwen-qwq-32b")) as [[]|[msg|n]]; cbn; auto.
    destruct (mcp_agent E (ChatGroq (JStr "qwen-qwq-32b")) c) as [[]|[msg|n]];
      cbn; auto.
Qed.

Lemma init_block_bound E : steps keeps_bound (init_block E).
Proof.
  intros w Hp. unfold init_block.
  unfold bind at 1. unfold attr at 1. run.
  destruct (agent (ss w)) as [a|] eqn:Ha; cbn; [|exact Hp].
  assert (Hgo : forall w0, ss w0 = ss w ->
            agent_bound
              (ss (snd ((emit (StSpinner "Initializing agent...") ;;;
                         r <- initialize_agent E ;;
                         set_client (fst r) ;;;
                         set_agent (snd r) ;;;
                         a' <- attr "agent" agent ;;
                         match a' with
                         | Some _ => emit (StSuccess "Agent initialized successfully!")
                         | None =>
                             st_error
                               "Failed to initialize agent. Please check your configuration."
                         end) w0)))).
  { intros w0 Hw0. unfold bind at 1. cbn.
    set (w1 := {| ss := ss w0; models_cache := models_cache w0;
                  log := (log w0 ++ [StSpinner "Initializing agent..."])%list |}).
    unfold bind at 1.
    pose proof (initialize_agent_session E w1) as Hs.
    pose proof (initialize_agent_built E w1) as Hr.
    destruct (initialize_agent E w1) as [r w2]. cbn in Hs, Hr.
    unfold same_session in Hs. cbn in Hs.
    destruct r as [[[c0|] [a0|]]|[msg|n]]; try contradiction; run.
    - intros a1 H1. cbn in H1. injection H1 as <-.
      destruct Hr as (-> & ? & ?). cbn. auto.
    - intros a1 H1. discriminate H1.
    - rewrite Hs, Hw0. exact Hp. }
  destruct a as [ag|]; cbn.
  - destruct (client (ss w)) as [c|] eqn:Hc; cbn; [|exact Hp].
    destruct c as [c|]; cbn; [exact Hp|].
    apply (Hgo w eq_refl).
  - apply (Hgo w eq_refl).
Qed.

Lemma same_handles_bound A (m : M A) : steps same_handles m -> steps keeps_bound m.
Proof.
  intros H w Hp a Ha. destruct (H w) as [Hag Hcl].
  rewrite Hag in Ha. rewrite Hcl. exact (Hp a Ha).
Qed.

Lemma script_steps_bound E : Forall (steps keeps_bound (A:=unit)) (script_steps E).
Proof.
  unfold script_steps. each_step.
  - intros w Hp a Ha. rewrite init_session_state_values in Ha |- *.
    cbn in Ha |- *. destruct (agent (ss w)) as [a0|] eqn:Hag; [|discriminate].
    injection Ha as ->. destruct (Hp a Hag) as (Hc & ? & ?).
    rewrite Hc. auto.
  - apply same_handles_bound, sidebar_handles.
  - apply init_block_bound.
  - apply same_handles_bound, same_session_handles, display_session.
  - apply same_handles_bound, chat_block_handles.
  - apply same_handles_bound. handles_leaf.
Qed.

(** X5. In every reachable state that holds an agent, the client handle
    stored beside it is the client the agent was built on, and the agent
    was built with max_steps 15 and memory enabled. *)
Theorem agent_bound_to_stored_client : forall w,
  reachable w ->
  forall a, agent (ss w) = Some (Some a) ->
    client (ss w) = Some (Some (agent_client a)) /\
    max_steps a = 15%Z /\ memory_enabled a = true.
Proof.
  induction 1 as [cache | E k w Hw IH | E w Hw IH].
  - intros a Ha. discriminate Ha.
  - assert (H : steps keeps_bound (run_steps (firstn k (script_steps E)))).
    { apply steps_run_steps; [exact _|].
      apply Forall_firstn_steps, script_steps_bound. }
    apply H. exact IH.
  - pose proof (cleanup_session E w) as H. unfold same_session in H.
    rewrite H. exact IH.
Qed.

Lemma agent_bound_to_stored_client_witness :
  reachable (snd (script idle_env (fresh_world None))) /\
  agent (ss (snd (script idle_env (fresh_world None))))
  = Some (Some sample_agent) /\
  client (ss (snd (script idle_env (fresh_world None))))
  = Some (Some (MCPClient 0)).
Proof.
  assert (H : reachable (snd (script idle_env (fresh_world None))))
    by (apply (reachable_blocks idle_env 6); apply reachable_fresh).
  split; [exact H | split; [reflexivity|]].
  exact (proj1 (agent_bound_to_stored_client _ H sample_agent eq_refl)).
Defined.

(** ** The chat handler, case by case *)

Ltac chat_cases E w Hm :=
  unfold chat_block;
  destruct (chat_input E) as [[|ch s]|] eqn:Hin;
  [ | unfold handle_input; run; rewrite Hm; cbn;
      destruct (agent (ss w)) as [[ag|]|] eqn:Hag; cbn;
      [ destruct (agent_run E ag (String ch s)) as [a|[m|n]] eqn:Hrun; cbn | | ];
      destruct (experimental_rerun E) as [[]|[m'|n']] eqn:Hre; cbn
    | ].

Lemma chat_block_no_exception E w old :
  messages (ss w) = Some old ->
  forall msg, fst (chat_block E w) <> Throw (Exc msg).
Proof.
  intros Hm msg. chat_cases E w Hm; discriminate.
Qed.

Lemma chat_block_suffix E w old :
  messages (ss w) = Some old ->
  exists suffix,
    messages (ss (snd (chat_block E w))) = Some (old ++ suffix)%list /\
    ((suffix = [] /\ forall q, chat_input E = Some q -> q = "") \/
     exists q, chat_input E = Some q /\ q <> "" /\
       (suffix = [ {| role := "user"; content := q |} ] \/
        exists ag a,
          agent (ss w) = Some (Some ag) /\ agent_run E ag q = Ret a /\
          suffix = [ {| role := "user"; content := q |};
                     {| role := "assistant"; content := a |} ])).
Proof.
  intros Hm.
  chat_cases E w Hm;
    try (exists []; split; [now rewrite app_nil_r|]; left;
         split; [reflexivity | intros q Hq; congruence]);
    try (exists [ {| role := "user"; content := String ch s |};
                  {| role := "assistant"; content := a |} ];
         split; [now rewrite <- app_assoc|]; right;
         exists (String ch s); split; [reflexivity|]; split; [discriminate|];
         right; exists ag, a; auto);
    (exists [ {| role := "user"; content := String ch s |} ];
     split; [reflexivity|]; right;
     exists (String ch s); split; [reflexivity|]; split; [discriminate|];
     left; reflexivity).
Qed.

Lemma chat_block_runs E w old :
  messages (ss w) = Some old ->
  exists new,
    log (snd (chat_block E w)) = (log w ++ new)%list /\
    (filter is_agent_run new = [] \/
     exists ag q, chat_input E = Some q /\ q <> "" /\
                  agent (ss w) = Some (Some ag) /\
                  filter is_agent_run new = [AgentRun ag q]).
Proof.
  intros Hm.
  chat_cases E w Hm;
    try (exists []; split; [now rewrite app_nil_r | left; reflexivity]);
    (eexists; split; [rewrite <- ?app_assoc; cbn; reflexivity|]; cbn;
     first [ left; reflexivity
           | right; exists ag, (String ch s);
             repeat split; auto; discriminate ]).
Qed.

(** ** Executions without a reset *)

(** X6. An execution in which the button is not pressed never removes or
    alters a transcript entry: the transcript afterwards is the one before
    followed by nothing (always so when nothing is submitted), by the
    submitted message as a user entry, or by that user entry and the
    agent's answer as an assistant entry - whatever the collaborators do
    and wherever the execution stops. *)
Theorem execution_only_appends : forall E w,
  button_new_conversation E = false ->
  exists suffix,
    transcript (snd (script E w)) = (transcript w ++ suffix)%list /\
    ((suffix = []) \/
     exists q, chat_input E = Some q /\ q <> "" /\
       (suffix = [ {| role := "user"; content := q |} ] \/
        exists a, suffix = [ {| role := "user"; content := q |};
                             {| role := "assistant"; content := a |} ])) /\
    (chat_input E = None -> suffix = []).
Proof.
  intros E w Hb.
  pose proof (before_chat_messages E w Hb) as Hm.
  rewrite script_split. unfold bind at 1.
  destruct (before_chat E w) as [[[]|t] w4]; cbn in Hm |- *.
  - destruct (chat_block_suffix E w4 _ Hm) as (suffix & Hs & Hshape).
    exists suffix.
    assert (Ht : transcript
                   (snd ((chat_block E ;;; emit AtexitRegister ;;; ret tt) w4))
                 = (transcript w ++ suffix)%list).
    { unfold bind at 1. destruct (chat_block E w4) as [[[]|t] w5];
        cbn in Hs |- *; unfold transcript at 1; cbn; now rewrite Hs. }
    split; [exact Ht|]. split.
    + destruct Hshape as [[-> _] | (q & Hq & Hne & [-> | (ag & a & _ & _ & ->)])];
        [left; reflexivity | right; exists q; auto | right; exists q; eauto].
    + intros Hnone.
      destruct Hshape as [[-> _] | (q & Hq & _)]; [reflexivity | congruence].
  - exists []. unfold transcript at 1. rewrite Hm, app_nil_r. auto.
Qed.

Lemma execution_only_appends_witness :
  button_new_conversation failing_env = false /\
  exists suffix,
    transcript (snd (script failing_env
                       (session_with (exchanges [("hi", "hello")])
                          (Some sample_agent) (Some (MCPClient 0)))))
    = (exchanges [("hi", "hello")] ++ suffix)%list.
Proof.
  split; [reflexivity|].
  destruct (execution_only_appends failing_env
              (session_with (exchanges [("hi", "hello")])
                 (Some sample_agent) (Some (MCPClient 0))) eq_refl)
    as (suffix & Hs & _).
  exists suffix. exact Hs.
Defined.

(** ** Where an exception can escape *)

Lemma sidebar_keys E : steps keys_kept (sidebar E).
Proof.
  unfold sidebar, new_conversation. frame keys_leaf.
  apply steps_load_models; [exact _ | keys_leaf ..].
Qed.

Lemma init_block_keys E : steps keys_kept (init_block E).
Proof.
  unfold init_block. frame keys_leaf.
  intros w. pose proof (initialize_agent_session E w) as H.
  unfold same_session in H. unfold keys_kept. rewrite H. auto.
Qed.

Lemma init_block_no_exception E w a c :
  agent (ss w) = Some a -> client (ss w) = Some c ->
  forall msg, fst (init_block E w) <> Throw (Exc msg).
Proof.
  intros Ha Hc msg. unfold init_block.
  unfold bind at 1. unfold attr at 1. run. rewrite Ha. cbn.
  assert (Hgo : forall w0,
            fst ((emit (StSpinner "Initializing agent...") ;;;
                  r <- initialize_agent E ;;
                  set_client (fst r) ;;;
                  set_agent (snd r) ;;;
                  a' <- attr "agent" agent ;;
                  match a' with
                  | Some _ => emit (StSuccess "Agent initialized successfully!")
                  | None =>
                      st_error
                        "Failed to initialize agent. Please check your configuration."
                  end) w0) <> Throw (Exc msg)).
  { intros w0. unfold bind at 1. cbn.
    set (w1 := {| ss := ss w0; models_cache := models_cache w0;
                  log := (log w0 ++ [StSpinner "Initializing agent..."])%list |}).
    unfold bind at 1.
    pose proof (initialize_agent_built E w1) as Hr.
    destruct (initialize_agent E w1) as [r w2]. cbn in Hr.
    destruct r as [[[c0|] [a0|]]|[m|n]]; try contradiction; run; discriminate. }
  destruct a as [ag|]; cbn.
  - rewrite Hc. cbn. destruct c as [cl|]; cbn; [discriminate|]. apply Hgo.
  - apply Hgo.
Qed.

Lemma keys_after_init w :
  messages (ss (snd (init_session_state w))) <> None /\
  agent (ss (snd (init_session_state w))) <> None /\
  client (ss (snd (init_session_state w))) <> None.
Proof. rewrite init_session_state_values. cbn. repeat split; discriminate. Qed.

(** X7. An execution of the script can end with an uncaught exception only
    in the sidebar (reading the first model of an empty or malformed list,
    the select box, the memory-clear call): the state initialisation, the
    agent initialization, the display and the chat handler never let one
    escape. *)
Theorem exception_only_from_sidebar : forall E w msg,
  fst (script E w) = Throw (Exc msg) ->
  fst (sidebar E (snd (init_session_state w))) = Throw (Exc msg).
Proof.
  intros E w msg H. unfold script, script_steps in H. cbn [run_steps] in H.
  unfold bind at 1 in H.
  destruct (keys_after_init w) as (Km & Ka & Kc).
  rewrite init_session_state_values in H, Km, Ka, Kc |- *.
  cbn [fst snd] in *.
  set (w1 := {| ss := _; models_cache := models_cache w; log := log w |}) in *.
  unfold bind at 1 in H.
  destruct (sidebar_keys E w1) as (Km2 & Ka2 & Kc2).
  destruct (sidebar E w1) as [[[]|t] w2]; cbn in *; [|exact H].
  specialize (Km2 Km). specialize (Ka2 Ka). specialize (Kc2 Kc).
  exfalso. unfold bind at 1 in H.
  destruct (agent (ss w2)) as [a|] eqn:Ha; [|congruence].
  destruct (client (ss w2)) as [c|] eqn:Hc; [|congruence].
  pose proof (init_block_no_exception E w2 a c Ha Hc msg) as Hi.
  destruct (init_block_keys E w2) as (Km3 & _ & _).
  destruct (init_block E w2) as [[[]|t] w3]; cbn in *; [|congruence].
  specialize (Km3 Km2).
  destruct (messages (ss w3)) as [l|] eqn:Hl; [|congruence].
  unfold bind at 1 in H.
  destruct (display_returns w3 l Hl) as (Hd & Hds).
  destruct (display w3) as [r4 w4]. cbn in Hd, Hds. subst r4.
  rewrite <- Hds in Hl.
  unfold bind at 1 in H.
  pose proof (chat_block_no_exception E w4 l Hl msg) as Hc4.
  destruct (chat_block E w4) as [[[]|t] w5]; cbn in *; [|congruence].
  discriminate H.
Qed.

Lemma exception_only_from_sidebar_witness :
  fst (script empty_models_env (fresh_world None))
  = Throw (Exc "list index out of range") /\
  fst (sidebar empty_models_env (snd (init_session_state (fresh_world None))))
  = Throw (Exc "list index out of range").
Proof.
  split; [reflexivity|].
  exact (exception_only_from_sidebar empty_models_env (fresh_world None)
           "list index out of range" eq_refl).
Defined.

(** ** The model selector *)

Lemma load_models_body_result E w w' :
  fst (load_models_body E w) = fst (load_models_body E w').
Proof.
  unfold load_models_body. run.
  destruct (open_file E "browser_mcp.json") as [text|t]; cbn; [|reflexivity].
  destruct (json_load E text) as [config|t]; cbn; [|reflexivity].
  destruct (config_get config "models" default_models); reflexivity.
Qed.

Lemma load_models_result E w w' :
  models_cache w = models_cache w' ->
  fst (load_models E w) = fst (load_models E w').
Proof.
  intros H. unfold load_models. rewrite <- H.
  destruct (models_cache w); [reflexivity|].
  pose proof (load_models_body_result E w w') as Hb.
  destruct (load_models_body E w) as [[v|t] w1],
           (load_models_body E w') as [[v'|t'] w1']; cbn in *; congruence.
Qed.

Lemma load_models_session E : steps same_session (load_models E).
Proof. apply steps_load_models; [exact _ | session_leaf ..]. Qed.

Lemma load_models_log E : steps log_grows (load_models E).
Proof. apply steps_load_models; [exact _ | log_leaf ..]. Qed.

Lemma bind_step A B (m : M A) (f : A -> M B) w a w1 :
  m w = (Ret a, w1) -> bind m f w = f a w1.
Proof. intros H. unfold bind. now rewrite H. Qed.

Lemma bind_throw A B (m : M A) (f : A -> M B) w t w1 :
  m w = (Throw t, w1) -> bind m f w = (Throw t, w1).
Proof. intros H. unfold bind. now rewrite H. Qed.

(** X8. In a session that has no selected model yet, the select box is
    opened on the first entry of the loaded model list; the value it
    returns is what the session state stores as the selected model, and
    when it raises the first entry stays stored.  With an empty list the
    sidebar raises "list index out of range" before the select box is
    shown and stores nothing. *)
Theorem first_model_is_default : forall E w items,
  selected_model (ss w) = None ->
  fst (load_models E w) = Ret (JArr items) ->
  match items with
  | [] =>
      fst (sidebar E w) = Throw (Exc "list index out of range") /\
      ss (snd (sidebar E w)) = ss w /\
      log (snd (sidebar E w)) = log (snd (load_models E w))
  | m :: _ =>
      (exists rest,
         log (snd (sidebar E w))
         = (log (snd (load_models E w)) ++ Selectbox (JArr items) m :: rest)%list) /\
      (forall chosen, selectbox E (JArr items) m = Ret chosen ->
         selected_model (ss (snd (sidebar E w))) = Some chosen) /\
      (forall t, selectbox E (JArr items) m = Throw t ->
         fst (sidebar E w) = Throw t /\
         selected_model (ss (snd (sidebar E w))) = Some m)
  end.
Proof.
  intros E w items Hsel Hload.
  pose proof (load_models_session E w) as Hs. unfold same_session in Hs.
  destruct (load_models E w) as [r w1] eqn:Hl. cbn in Hload, Hs |- *. subst r.
  unfold sidebar. rewrite !(bind_step _ _ _ _ _ _ _ Hl).
  unfold new_conversation. run. rewrite Hs, Hsel.
  destruct items as [|m items]; cbn.
  - repeat split; auto.
  - destruct (selectbox E (JArr (m :: items)) m) as [chosen|t]; cbn.
    + split; [|split; [|discriminate]].
      * destruct (button_new_conversation E); cbn.
        -- destruct (agent (ss w1)) as [[ag|]|]; cbn;
             [destruct (clear_conversation_history E ag) as [[]|t]; cbn | | ];
             eexists; rewrite <- ?app_assoc; cbn; reflexivity.
        -- eexists. reflexivity.
      * intros chosen' H. injection H as <-.
        destruct (button_new_conversation E); cbn; [|reflexivity].
        destruct (agent (ss w1)) as [[ag|]|]; cbn; try reflexivity.
    + split; [eexists; reflexivity|]. split; [discriminate|].
      intros t' H. injection H as <-. auto.
Qed.

Lemma first_model_is_default_witness :
  selected_model (ss (fresh_world None)) = None /\
  fst (load_models idle_env (fresh_world None))
  = Ret (JArr [JStr "groq-llama"; JStr "qwen-qwq-32b"]) /\
  selected_model (ss (snd (sidebar idle_env (fresh_world None))))
  = Some (JStr "groq-llama").
Proof.
  split; [reflexivity | split; [reflexivity|]].
  exact (proj1 (proj2 (first_model_is_default idle_env (fresh_world None)
                         [JStr "groq-llama"; JStr "qwen-qwq-32b"]
                         eq_refl eq_refl))
           (JStr "groq-llama") eq_refl).
Defined.

Lemma load_models_caches E w v :
  fst (load_models E w) = Ret v ->
  models_cache (snd (load_models E w)) = Some v.
Proof.
  unfold load_models. destruct (models_cache w) as [v0|] eqn:Hc; cbn.
  - intros H. injection H as <-. exact Hc.
  - destruct (load_models_body E w) as [[v1|t] w1]; cbn; congruence.
Qed.

Lemma sidebar_empty_list E w :
  selected_model (ss w) = None ->
  fst (load_models E w) = Ret (JArr []) ->
  sidebar E w = (Throw (Exc "list index out of range"), snd (load_models E w)).
Proof.
  intros Hsel Hload.
  pose proof (load_models_session E w) as Hs. unfold same_session in Hs.
  destruct (load_models E w) as [r w1] eqn:Hl. cbn in Hload, Hs |- *. subst r.
  unfold sidebar. rewrite (bind_step _ _ _ _ _ _ _ Hl).
  run. rewrite Hs, Hsel. reflexivity.
Qed.

(** X9. With an empty model list and no model selected yet, an execution
    of the script stops in the sidebar with "list index out of range":
    no constructor is called, the transcript is unchanged, and the state
    it leaves (still no selected model, the empty list cached) makes every
    later execution stop the same way. *)
Theorem empty_model_list_stops_script : forall E w,
  selected_model (ss w) = None ->
  fst (load_models E w) = Ret (JArr []) ->
  fst (script E w) = Throw (Exc "list index out of range") /\
  constructor_calls (log (snd (script E w))) = constructor_calls (log w) /\
  transcript (snd (script E w)) = transcript w /\
  selected_model (ss (snd (script E w))) = None /\
  (forall E', fst (load_models E' (snd (script E w))) = Ret (JArr [])).
Proof.
  intros E w Hsel Hload.
  set (w1 := {| ss := {| messages := Some (match messages (ss w) with
                                           | Some l => l | None => [] end);
                         agent := Some (match agent (ss w) with
                                        | Some a => a | None => None end);
                         client := Some (match client (ss w) with
                                         | Some c => c | None => None end);
                         selected_model := selected_model (ss w) |};
                models_cache := models_cache w; log := log w |}).
  assert (Hsel1 : selected_model (ss w1) = None) by exact Hsel.
  assert (Hload1 : fst (load_models E w1) = Ret (JArr [])).
  { rewrite <- Hload. apply load_models_result. reflexivity. }
  assert (Hscript : script E w
                    = (Throw (Exc "list index out of range"),
                       snd (load_models E w1))).
  { unfold script, script_steps. cbn [run_steps].
    rewrite (bind_step _ _ _ _ _ _ _ (init_session_state_values w)).
    apply bind_throw. apply (sidebar_empty_list E w1 Hsel1 Hload1). }
  rewrite Hscript. cbn [fst snd].
  pose proof (load_models_session E w1) as Hs. unfold same_session in Hs.
  pose proof (load_models_caches E w1 _ Hload1) as Hc.
  split; [reflexivity|]. split; [|split; [|split]].
  - assert (Hq : steps quiet (load_models E))
      by (apply steps_load_models; [exact _ | quiet_leaf ..]).
    destruct (Hq w1) as (_ & _ & Hn). exact Hn.
  - unfold transcript. rewrite Hs. cbn. destruct (messages (ss w)); reflexivity.
  - rewrite Hs. exact Hsel.
  - intros E'. set (w2 := snd (load_models E w1)) in *.
    unfold load_models. rewrite Hc. reflexivity.
Qed.

Lemma empty_model_list_stops_script_witness :
  selected_model (ss (fresh_world None)) = None /\
  fst (load_models empty_models_env (fresh_world None)) = Ret (JArr []) /\
  fst (script empty_models_env (fresh_world None))
  = Throw (Exc "list index out of range").
Proof.
  split; [reflexivity | split; [reflexivity|]].
  exact (proj1 (empty_model_list_stops_script empty_models_env
                  (fresh_world None) eq_refl eq_refl)).
Defined.

(** ** A reset execution *)

Lemma returns_in_bind P A B (m : M A) (f : A -> M B) :
  (forall a, returns_in P (f a)) -> returns_in P (bind m f).
Proof.
  intros Hf w b. unfold bind.
  destruct (m w) as [[a|t] w1]; cbn; [apply Hf | discriminate].
Qed.

Lemma new_conversation_empties E w :
  messages (ss (snd (new_conversation E w))) = Some [].
Proof.
  unfold new_conversation. run.
  destruct (agent (ss w)) as [[ag|]|]; cbn; reflexivity.
Qed.

Lemma sidebar_reset E :
  button_new_conversation E = true ->
  returns_in (fun w => messages (ss w) = Some []) (sidebar E).
Proof.
  intros Hb. unfold sidebar. rewrite Hb.
  repeat match goal with
         | |- returns_in _ (bind _ _) => apply returns_in_bind; intros ?
         end.
  intros w b _. apply new_conversation_empties.
Qed.

(** X10. When the button is pressed and the sidebar gets through, the
    transcript at the end of that execution holds nothing of the earlier
    conversation: it is empty if no message was submitted in the same
    execution. *)
Theorem reset_execution_empties_transcript : forall E w,
  button_new_conversation E = true ->
  chat_input E = None ->
  fst (sidebar E (snd (init_session_state w))) = Ret tt ->
  transcript (snd (script E w)) = [].
Proof.
  intros E w Hb Hin Hside.
  unfold script, script_steps. cbn [run_steps]. unfold bind at 1.
  rewrite init_session_state_values in Hside |- *. cbn [fst snd] in *.
  set (w1 := {| ss := _; models_cache := models_cache w; log := log w |}) in *.
  pose proof (sidebar_reset E Hb w1 tt Hside) as Hm.
  unfold bind at 1.
  destruct (sidebar E w1) as [r2 w2]. cbn in Hside, Hm. subst r2.
  assert (Hrest : steps same_messages
                    (init_block E ;;; display ;;; chat_block E ;;;
                     emit AtexitRegister ;;; ret tt)).
  { frame messages_leaf.
    - apply init_block_messages.
    - apply same_session_messages, display_session.
    - unfold chat_block. rewrite Hin. frame messages_leaf. }
  specialize (Hrest w2). unfold same_messages in Hrest.
  unfold transcript. rewrite Hrest, Hm. reflexivity.
Qed.

Lemma reset_execution_empties_transcript_witness :
  button_new_conversation (with_button idle_env true) = true /\
  chat_input (with_button idle_env true) = None /\
  fst (sidebar (with_button idle_env true)
         (snd (init_session_state
                 (session_with (exchanges [("hi", "hello")])
                    (Some sample_agent) (Some (MCPClient 0)))))) = Ret tt /\
  transcript (snd (script (with_button idle_env true)
                     (session_with (exchanges [("hi", "hello")])
                        (Some sample_agent) (Some (MCPClient 0))))) = [].
Proof.
  split; [reflexivity | split; [reflexivity | split; [reflexivity|]]].
  exact (reset_execution_empties_transcript (with_button idle_env true)
           (session_with (exchanges [("hi", "hello")])
              (Some sample_agent) (Some (MCPClient 0)))
           eq_refl eq_refl eq_refl).
Defined.

(** ** Calls of the agent *)

Lemma before_chat_no_runs E : steps no_runs (before_chat E).
Proof.
  unfold before_chat. apply steps_run_steps; [exact _|]. each_step.
  - intros w. rewrite init_session_state_values. cbn.
    exists []. split; [now rewrite app_nil_r | reflexivity].
  - unfold sidebar, new_conversation. frame runs_leaf.
    apply steps_load_models; [exact _ | runs_leaf ..].
  - unfold init_block, initialize_agent, initialize_agent_body,
      new_chat_groq, new_mcp_agent.
    frame runs_leaf.
  - assert (H : forall l i, steps no_runs (show_messages i l)).
    { induction l; intros i; simpl; frame runs_leaf; apply IHl. }
    unfold display. frame runs_leaf. apply H.
Qed.

Lemma before_chat_keys E : steps keys_kept (before_chat E).
Proof.
  unfold before_chat. apply steps_run_steps; [exact _|]. each_step.
  - intros w. rewrite init_session_state_values. unfold keys_kept. cbn.
    repeat split; discriminate.
  - apply sidebar_keys.
  - apply init_block_keys.
  - intros w. pose proof (display_session w) as H. unfold same_session in H.
    unfold keys_kept. rewrite H. auto.
Qed.

Lemma before_chat_has_messages E w :
  messages (ss (snd (before_chat E w))) <> None.
Proof.
  unfold before_chat. cbn [run_steps]. unfold bind at 1.
  rewrite init_session_state_values.
  set (w1 := {| ss := _; models_cache := models_cache w; log := log w |}).
  assert (H : steps keys_kept
                (sidebar E ;;; init_block E ;;; display ;;; ret tt)).
  { frame keys_leaf.
    - apply sidebar_keys.
    - apply init_block_keys.
    - intros w0. pose proof (display_session w0) as H. unfold same_session in H.
      unfold keys_kept. rewrite H. auto. }
  destruct (H w1) as (Hm & _ & _). apply Hm. discriminate.
Qed.

(** X11. In one execution of the script the agent's run is called at most
    once, and only for a submitted non-empty message: when it is called, it
    is called on the agent that the session state holds at the end of the
    execution and with exactly the submitted text. *)
Theorem agent_runs_at_most_once : forall E w,
  exists new,
    log (snd (script E w)) = (log w ++ new)%list /\
    (filter is_agent_run new = [] \/
     exists ag q,
       chat_input E = Some q /\ q <> "" /\
       agent (ss (snd (script E w))) = Some (Some ag) /\
       filter is_agent_run new = [AgentRun ag q]) /\
    (chat_input E = None -> filter is_agent_run new = []).
Proof.
  intros E w.
  destruct (before_chat_no_runs E w) as (n1 & Hn1 & F1).
  pose proof (before_chat_has_messages E w) as Hkey.
  rewrite script_split.
  destruct (before_chat E w) as [[[]|t] w4] eqn:Hbc; cbn in Hn1, Hkey.
  - rewrite (bind_step _ _ _ _ _ _ _ Hbc).
    destruct (messages (ss w4)) as [old|] eqn:Hm; [|congruence].
    destruct (chat_block_runs E w4 old Hm) as (n2 & Hn2 & Hshape).
    destruct (chat_block_handles E w4) as [Hag _].
    destruct (chat_block E w4) as [[[]|t] w5] eqn:Hcb; cbn in Hn2, Hag.
    + rewrite (bind_step _ _ _ _ _ _ _ Hcb). unfold bind. cbn.
      exists (n1 ++ n2 ++ [AtexitRegister])%list.
      split; [rewrite Hn2, Hn1, <- !app_assoc; reflexivity|].
      rewrite !filter_app, F1. cbn. rewrite app_nil_r.
      split.
      * destruct Hshape as [H | (ag & q & Hq & Hne & Ha & H)];
          [left; exact H
          | right; exists ag, q; repeat split; auto; congruence].
      * intros Hnone.
        destruct Hshape as [H | (ag & q & Hq & _)]; [exact H | congruence].
    + rewrite (bind_throw _ _ _ _ _ _ _ Hcb). cbn.
      exists (n1 ++ n2)%list.
      split; [rewrite Hn2, Hn1, <- !app_assoc; reflexivity|].
      rewrite !filter_app, F1. cbn.
      split.
      * destruct Hshape as [H | (ag & q & Hq & Hne & Ha & H)];
          [left; exact H
          | right; exists ag, q; repeat split; auto; congruence].
      * intros Hnone.
        destruct Hshape as [H | (ag & q & Hq & _)]; [exact H | congruence].
  - rewrite (bind_throw _ _ _ _ _ _ _ Hbc). cbn.
    exists n1. split; [exact Hn1|]. split; [left; exact F1 | intros _; exact F1].
Qed.

(** ** Outcome of the initialization block *)

Lemma initialize_agent_body_returns E w r :
  fst (initialize_agent_body E w) = Ret r ->
  exists c a, r = (Some c, Some a).
Proof.
  unfold initialize_agent_body, new_chat_groq, new_mcp_agent. run.
  destruct (from_config_file E "browser_mcp.json") as [c|t]; cbn;
    [|discriminate].
  destruct (selected_model (ss w)) as [model|]; cbn; [|discriminate].
  destruct (py_in "groq" model) as [[|]|t]; cbn; [| |discriminate].
  - destruct (chat_groq E model) as [[]|t]; cbn; [|discriminate].
    destruct (mcp_agent E (ChatGroq model) c) as [[]|t]; cbn; [|discriminate].
    intros H. injection H as <-. eauto.
  - destruct (chat_groq E (JStr "qwen-qwq-32b")) as [[]|t]; cbn; [|discriminate].
    destruct (mcp_agent E (ChatGroq (JStr "qwen-qwq-32b")) c) as [[]|t]; cbn;
      [|discriminate].
    intros H. injection H as <-. eauto.
Qed.

Lemma initialize_agent_body_log E : steps log_grows (initialize_agent_body E).
Proof.
  unfold initialize_agent_body, new_chat_groq, new_mcp_agent. frame log_leaf.
Qed.

Lemma initialize_agent_none_logged E w :
  fst (initialize_agent E w) = Ret (None, None) ->
  exists calls msg,
    log (snd (initialize_agent E w))
    = (log w ++ calls ++ [StError ("Error initializing agent: " ++ msg)])%list.
Proof.
  intros H.
  destruct (initialize_agent_body_log E w) as [calls Hcalls].
  pose proof (initialize_agent_body_returns E w) as Hret.
  pose proof (initialize_agent_catches E w) as Hcatch.
  unfold initialize_agent, try_except in H.
  destruct (initialize_agent_body E w) as [[r|[msg|n]] w1] eqn:Hb;
    cbn in H, Hcalls, Hret, Hcatch.
  - destruct (Hret r eq_refl) as (c & a & ->). discriminate H.
  - destruct (Hcatch msg eq_refl) as [_ Hl].
    exists calls, msg. now rewrite Hl, Hcalls, app_assoc.
  - discriminate H.
Qed.

Lemma init_block_needed_value E w a c :
  agent (ss w) = Some a -> client (ss w) = Some c ->
  a = None \/ c = None ->
  init_block E w
  = match initialize_agent E
            {| ss := ss w; models_cache := models_cache w;
               log := (log w ++ [StSpinner "Initializing agent..."])%list |}
    with
    | (Ret r, w2) =>
        (Ret tt,
         {| ss := {| messages := messages (ss w2); agent := Some (snd r);
                     client := Some (fst r);
                     selected_model := selected_model (ss w2) |};
            models_cache := models_cache w2;
            log := (log w2 ++
                    [match snd r with
                     | Some _ => StSuccess "Agent initialized successfully!"
                     | None =>
                         StError
                           "Failed to initialize agent. Please check your configuration."
                     end])%list |})
    | (Throw t, w2) => (Throw t, w2)
    end.
Proof.
  intros Ha Hc Habs.
  assert (Hp : handle_present (Some a) = false \/ handle_present (Some c) = false)
    by (destruct Habs as [-> | ->]; auto).
  rewrite (init_block_when_needed E w a c Ha Hc Hp).
  unfold bind at 1. cbn [emit fst snd]. unfold bind at 1.
  destruct (initialize_agent E _) as [[r|t] w2]; [|reflexivity].
  run. destruct (snd r); reflexivity.
Qed.

(** X12. When the initialization block runs - a handle is absent - and
    comes back, it has stored the pair the initializer returned and told
    the user the outcome as its last message: either both handles are
    present and "Agent initialized successfully!" is shown, or both are
    None and "Error initializing agent: <message>" is followed by "Failed
    to initialize agent. Please check your configuration.".  The block
    never lets an exception escape. *)
Theorem init_block_reports_outcome : forall E w a c,
  agent (ss w) = Some a -> client (ss w) = Some c ->
  a = None \/ c = None ->
  (forall msg, fst (init_block E w) <> Throw (Exc msg)) /\
  (fst (init_block E w) = Ret tt ->
   (handle_present (agent (ss (snd (init_block E w)))) = true /\
    handle_present (client (ss (snd (init_block E w)))) = true /\
    exists pre,
      log (snd (init_block E w))
      = (log w ++ pre ++ [StSuccess "Agent initialized successfully!"])%list)
   \/
   (agent (ss (snd (init_block E w))) = Some None /\
    client (ss (snd (init_block E w))) = Some None /\
    exists pre msg,
      log (snd (init_block E w))
      = (log w ++ pre ++
         [ StError ("Error initializing agent: " ++ msg);
           StError "Failed to initialize agent. Please check your configuration." ])%list)).
Proof.
  intros E w a c Ha Hc Habs.
  split; [apply (init_block_no_exception E w a c Ha Hc)|].
  rewrite (init_block_needed_value E w a c Ha Hc Habs).
  set (w1 := {| ss := ss w; models_cache := models_cache w;
                log := (log w ++ [StSpinner "Initializing agent..."])%list |}).
  pose proof (initialize_agent_built E w1) as Hr.
  pose proof (initialize_agent_none_logged E w1) as Hn.
  destruct (initialize_agent_log E w1) as [calls Hcalls].
  destruct (initialize_agent E w1) as [r w2]. cbn [fst snd] in Hr, Hn, Hcalls.
  destruct r as [[[c0|] [a0|]]|[m|n]]; try contradiction;
    cbn [fst snd ss log agent client handle_present].
  - intros _. left. split; [reflexivity | split; [reflexivity|]].
    exists ([StSpinner "Initializing agent..."] ++ calls)%list.
    rewrite Hcalls. unfold w1. cbn [log]. now rewrite <- !app_assoc.
  - intros _. right. split; [reflexivity | split; [reflexivity|]].
    destruct (Hn eq_refl) as (calls' & msg & Hl).
    exists ([StSpinner "Initializing agent..."] ++ calls')%list, msg.
    rewrite Hl. unfold w1. cbn [log]. now rewrite <- !app_assoc.
  - discriminate.
Qed.

Lemma init_block_reports_outcome_witness :
  agent (ss (session_with [] None None)) = Some None /\
  client (ss (session_with [] None None)) = Some None /\
  forall msg,
    fst (init_block no_client_env (session_with [] None None))
    <> Throw (Exc msg).
Proof.
  split; [reflexivity | split; [reflexivity|]].
  exact (proj1 (init_block_reports_outcome no_client_env
                  (session_with [] None None) None None
                  eq_refl eq_refl (or_introl eq_refl))).
Defined.

(** ** Models that are not strings *)

(** X13. When the selected model is a JSON null, boolean or number
    (integer or float), the membership test of the initializer raises: no
    LLM binding and no agent is built, the initializer shows an error and
    returns (None, None). *)
Theorem non_string_model_fails : forall E w c model,
  from_config_file E "browser_mcp.json" = Ret c ->
  selected_model (ss w) = Some model ->
  (model = JNull \/ (exists b, model = JBool b) \/
   (exists z, model = JNum z) \/ (exists f, model = JFloat f)) ->
  fst (initialize_agent E w) = Ret (None, None) /\
  exists msg,
    log (snd (initialize_agent E w))
    = (log w ++ [ FromConfigFile "browser_mcp.json";
                  StError ("Error initializing agent: " ++ msg) ])%list.
Proof.
  intros E w c model Hc Hm Hmodel.
  unfold initialize_agent, initialize_agent_body, new_chat_groq, new_mcp_agent.
  run. rewrite Hc. cbn. rewrite Hm. cbn.
  destruct Hmodel as [-> | [[b ->] | [[z ->] | [f ->]]]]; cbn;
    (split; [reflexivity|]); eexists; rewrite <- !app_assoc; reflexivity.
Qed.

Lemma non_string_model_fails_witness :
  from_config_file idle_env "browser_mcp.json" = Ret (MCPClient 0) /\
  selected_model (ss (session_selecting (JNum 7))) = Some (JNum 7) /\
  fst (initialize_agent idle_env (session_selecting (JNum 7)))
  = Ret (None, None).
Proof.
  split; [reflexivity | split; [reflexivity|]].
  exact (proj1 (non_string_model_fails idle_env (session_selecting (JNum 7))
                  (MCPClient 0) (JNum 7) eq_refl eq_refl
                  (or_intror (or_intror (or_introl (ex_intro _ 7%Z eq_refl)))))).
Defined.

(** ** The button in the sidebar *)

#[export] Instance same_clears_frame : FrameRel same_clears.
Proof. split; unfold same_clears; congruence. Qed.

Ltac clears_leaf :=
  prim_step; unfold same_clears;
  cbn [fst snd ss log models_cache messages agent client selected_model];
  rewrite ?clear_calls_app; cbn; lia.

Lemma sidebar_split E w :
  sidebar E w
  = (select_model E ;;;
     if button_new_conversation E then new_conversation E else ret tt) w.
Proof.
  unfold sidebar, select_model, bind.
  destruct (load_models E w) as [[models|t] w1]; [|reflexivity].
  destruct (get_ss w1) as [[s|t] w2]; [|reflexivity].
  destruct (match selected_model s with
            | Some _ => ret tt
            | None =>
                fun w0 => let (o, w') := lift (getitem0 models) w0 in
                          match o with
                          | Ret a => set_selected_model a w'
                          | Throw t => (Throw t, w')
                          end
            end w2) as [[[]|t] w3]; [|reflexivity].
  destruct (attr "selected_model" selected_model w3) as [[current|t] w4];
    [|reflexivity].
  destruct (call (Selectbox models current) (selectbox E models current) w4)
    as [[chosen|t] w5]; [|reflexivity].
  destruct (set_selected_model chosen w5) as [[[]|t] w6]; reflexivity.
Qed.

Lemma select_model_clears E : steps same_clears (select_model E).
Proof.
  unfold select_model. frame clears_leaf.
  apply steps_load_models; [exact _ | clears_leaf ..].
Qed.

Lemma select_model_handles E : steps same_handles (select_model E).
Proof.
  unfold select_model. frame handles_leaf.
  apply steps_load_models; [exact _ | handles_leaf ..].
Qed.

Lemma select_model_messages E : steps same_messages (select_model E).
Proof.
  unfold select_model. frame messages_leaf.
  apply steps_load_models; [exact _ | messages_leaf ..].
Qed.

Lemma after_sidebar_clears E :
  steps same_clears
    (init_block E ;;; display ;;; chat_block E ;;; emit AtexitRegister ;;; ret tt).
Proof.
  unfold init_block, initialize_agent, initialize_agent_body, new_chat_groq,
    new_mcp_agent, display, chat_block, handle_input, append_message.
  assert (H : forall l i, steps same_clears (show_messages i l)).
  { induction l; intros i; simpl; frame clears_leaf; apply IHl. }
  frame clears_leaf; apply H.
Qed.

Lemma script_after_sidebar E w :
  script E w
  = (sidebar E ;;; init_block E ;;; display ;;; chat_block E ;;;
     emit AtexitRegister ;;; ret tt) (snd (init_session_state w)).
Proof.
  unfold script, script_steps. cbn [run_steps].
  rewrite (bind_step _ _ _ _ _ _ _ (init_session_state_values w)).
  rewrite init_session_state_values. reflexivity.
Qed.

Lemma script_clears E w :
  clear_calls (log (snd (script E w)))
  = clear_calls (log (snd (sidebar E (snd (init_session_state w))))).
Proof.
  rewrite script_after_sidebar.
  set (w0 := snd (init_session_state w)).
  destruct (sidebar E w0) as [[[]|t] w2] eqn:Hs.
  - rewrite (bind_step _ _ _ _ _ _ _ Hs). apply after_sidebar_clears.
  - rewrite (bind_throw _ _ _ _ _ _ _ Hs). reflexivity.
Qed.

Lemma script_messages_no_input E w :
  chat_input E = None ->
  messages (ss (snd (script E w)))
  = messages (ss (snd (sidebar E (snd (init_session_state w))))).
Proof.
  intros Hin. rewrite script_after_sidebar.
  set (w0 := snd (init_session_state w)).
  destruct (sidebar E w0) as [[[]|t] w2] eqn:Hs.
  - rewrite (bind_step _ _ _ _ _ _ _ Hs).
    assert (Hrest : steps same_messages
                      (init_block E ;;; display ;;; chat_block E ;;;
                       emit AtexitRegister ;;; ret tt)).
    { frame messages_leaf.
      - apply init_block_messages.
      - apply same_session_messages, display_session.
      - unfold chat_block. rewrite Hin. frame messages_leaf. }
    apply Hrest.
  - rewrite (bind_throw _ _ _ _ _ _ _ Hs). reflexivity.
Qed.

(** C6. Pressing "New Conversation": when the sidebar gets to the button
    (the model selector before it returns), the transcript is reset to the
    empty list and the agent's memory-clear operation is invoked exactly
    once if an agent handle is present and not at all if it is absent; over
    the whole execution of the script the number of memory-clear calls
    grows by exactly that, and with nothing submitted the transcript is
    empty at the end.  When the button is not pressed, or the sidebar stops
    before it, the execution makes no memory-clear call. *)
Theorem new_conversation_button : forall E w,
  (button_new_conversation E = false ->
   clear_calls (log (snd (script E w))) = clear_calls (log w)) /\
  (button_new_conversation E = true ->
   forall w1,
     select_model E (snd (init_session_state w)) = (Ret tt, w1) ->
     exists a,
       agent (ss w1) = Some a /\
       handle_present (Some a) = handle_present (agent (ss w)) /\
       messages (ss (snd (sidebar E (snd (init_session_state w))))) = Some [] /\
       log (snd (sidebar E (snd (init_session_state w))))
       = (log w1 ++ match a with
                    | Some ag => [ClearConversationHistory ag]
                    | None => []
                    end)%list /\
       clear_calls (log (snd (script E w)))
       = clear_calls (log w)
         + (if handle_present (agent (ss w)) then 1 else 0) /\
       (chat_input E = None -> transcript (snd (script E w)) = [])) /\
  (forall t w1,
     select_model E (snd (init_session_state w)) = (Throw t, w1) ->
     clear_calls (log (snd (script E w))) = clear_calls (log w)).
Proof.
  intros E w.
  assert (Hlog0 : log (snd (init_session_state w)) = log w)
    by (rewrite init_session_state_values; reflexivity).
  assert (Hag0 : agent (ss (snd (init_session_state w)))
                 = Some (match agent (ss w) with
                         | Some a => a | None => None end))
    by (rewrite init_session_state_values; reflexivity).
  set (w0 := snd (init_session_state w)) in *.
  pose proof (select_model_clears E w0) as Hcl. unfold same_clears in Hcl.
  destruct (select_model_handles E w0) as [Hsh _].
  split; [|split].
  - intros Hb. rewrite script_clears. fold w0.
    rewrite sidebar_split, Hb.
    destruct (select_model E w0) as [[[]|t] w1] eqn:Hsel; cbn in Hcl.
    + rewrite (bind_step _ _ _ _ _ _ _ Hsel). cbn. congruence.
    + rewrite (bind_throw _ _ _ _ _ _ _ Hsel). cbn. congruence.
  - intros Hb w1 Hsel. rewrite Hsel in Hcl, Hsh. cbn in Hcl, Hsh.
    exists (match agent (ss w) with Some a => a | None => None end).
    assert (Ha : agent (ss w1)
                 = Some (match agent (ss w) with
                         | Some a => a | None => None end))
      by congruence.
    assert (Hside : sidebar E w0 = new_conversation E w1).
    { rewrite sidebar_split, Hb.
      exact (bind_step _ _ (select_model E) (fun _ => new_conversation E)
               w0 tt w1 Hsel). }
    destruct (new_conversation_resets E w1 _ Ha) as (Hm & Hl & _).
    split; [exact Ha|]. split; [destruct (agent (ss w)) as [[?|]|]; reflexivity|].
    rewrite Hside. split; [exact Hm|]. split; [exact Hl|]. split.
    + rewrite script_clears. fold w0. rewrite Hside, Hl, clear_calls_app, Hcl, Hlog0.
      destruct (agent (ss w)) as [[?|]|]; reflexivity.
    + intros Hin. unfold transcript.
      rewrite (script_messages_no_input E w Hin). fold w0.
      now rewrite Hside, Hm.
  - intros t w1 Hsel. rewrite Hsel in Hcl. cbn in Hcl.
    rewrite script_clears. fold w0. rewrite sidebar_split.
    rewrite (bind_throw _ _ _ _ _ _ _ Hsel). cbn. congruence.
Qed.

Lemma new_conversation_button_witness :
  button_new_conversation (with_button idle_env true) = true /\
  select_model (with_button idle_env true)
    (snd (init_session_state talking_session))
  = (Ret tt,
     snd (select_model (with_button idle_env true)
            (snd (init_session_state talking_session)))) /\
  clear_calls (log (snd (script (with_button idle_env true) talking_session)))
  = clear_calls (log talking_session) + 1 /\
  transcript (snd (script (with_button idle_env true) talking_session)) = [].
Proof.
  split; [reflexivity | split; [reflexivity|]].
  destruct (proj1 (proj2 (new_conversation_button (with_button idle_env true)
                            talking_session))
              eq_refl _ eq_refl)
    as (a & _ & _ & _ & _ & Hcalls & Hempty).
  split; [exact Hcalls | exact (Hempty eq_refl)].
Defined.

(** ** Registration of the shutdown hook and process exit *)

#[export] Instance same_hooks_frame : FrameRel same_hooks.
Proof. split; unfold same_hooks; congruence. Qed.












